(** * Watercooler manager: packet codec, fan curve and automatic controller

    A shallow embedding of [watercooler_bt_gui.py].

    Numbers.  Python [int]s are [Z].  The temperatures delivered by the
    sensor backend and the value computed by the fan curve are Python
    [float]s; they are modelled by exact rationals [Q], so the rounding
    of binary64 arithmetic, NaN and the infinities are not part of this
    model.  Comparisons between an [int] and a [float] are exact in
    Python, as they are here.

    Errors.  A Python exception is a value of [PyExc]; code that can raise
    returns a [result].

    Effects.  The window object is the record [MainWindow]; the BLE client
    is an opaque handle with the two operations the program uses
    ([is_connected], [write_gatt_char]).  Every call of
    [write_gatt_char] is recorded in a trace. *)

From Stdlib Require Import List ZArith QArith Qround Qabs Bool Lia Lqa.
From Stdlib Require Import Sorting.Sorted Sorting.Permutation.
From Stdlib Require Strings.String.
Import ListNotations.
Import String.StringSyntax.
Delimit Scope string_scope with string.

Set Implicit Arguments.

(* ================================================================= *)
(** ** Exceptions and results *)

Inductive PyExc : Type :=
| IndexError
| ZeroDivisionError
| ValueError
| BleakError.

Inductive result (A : Type) : Type :=
| Return (a : A)
| Raise (e : PyExc).

Arguments Return {A} a.
Arguments Raise {A} e.

(* ================================================================= *)
(** ** Commands, enumerations, packets *)

Module Commands.
Definition FAN : Z := 0x1B.
Definition PUMP : Z := 0x1C.
Definition RGB : Z := 0x1E.
End Commands.

Inductive PumpVoltage : Type := V7 | V8 | V11 | V12.

Definition PumpVoltage_int (v : PumpVoltage) : Z :=
  match v with
  | V7 => 0x02
  | V8 => 0x03
  | V11 => 0x00
  | V12 => 0x01
  end.

Inductive RGBMode : Type := STATIC | BREATH | RAINBOW.

Definition RGBMode_int (m : RGBMode) : Z :=
  match m with
  | STATIC => 0x00
  | BREATH => 0x01
  | RAINBOW => 0x02
  end.

Definition RGBMode_eqb (a b : RGBMode) : bool :=
  match a, b with
  | STATIC, STATIC | BREATH, BREATH | RAINBOW, RAINBOW => true
  | _, _ => false
  end.

(** A packet is the content of a [bytearray]: integers in [range(256)]. *)
Definition packet : Type := list Z.

Definition is_byte (z : Z) : bool := (0 <=? z)%Z && (z <? 256)%Z.

(** [bytearray(l)] raises [ValueError] when an element is outside
    [range(256)]. *)
Definition bytearray (l : list Z) : result packet :=
  if forallb is_byte l then Return l else Raise ValueError.

(** The truth value of a Python [int]. *)
Definition truthy (z : Z) : bool := negb (z =? 0)%Z.

(** The packet built by [write_fan_mode]. *)
Definition fan_packet (duty : Z) : result packet :=
  bytearray [0xFE; Commands.FAN; if truthy duty then 0x01 else 0x00;
             duty; 0; 0; 0; 0xEF]%Z.

(** The packet built by [write_pump_mode]. *)
Definition pump_packet (voltage : PumpVoltage) : result packet :=
  bytearray [0xFE; Commands.PUMP; 0x01; 100; PumpVoltage_int voltage;
             0; 0; 0xEF]%Z.

(** The packet built by [write_rgb_mode]. *)
Definition rgb_packet (mode : RGBMode) (color : Z * Z * Z) : result packet :=
  let '(red, green, blue) := color in
  bytearray [0xFE; Commands.RGB; 0x01; red; green; blue; RGBMode_int mode;
             0xEF]%Z.

(* ================================================================= *)
(** ** The fan curve *)

(** A control point [(temp, pct)]. *)
Definition point : Type := (Z * Z)%type.

(** Python compares tuples lexicographically. *)
Definition tuple_leb (a b : point) : bool :=
  (fst a <? fst b)%Z || ((fst a =? fst b)%Z && (snd a <=? snd b)%Z).

Fixpoint insert_sorted (x : point) (l : list point) : list point :=
  match l with
  | [] => [x]
  | y :: l' => if tuple_leb x y then x :: l else y :: insert_sorted x l'
  end.

(** [sorted(points)]: the ascending rearrangement of the list.  The order
    on tuples of integers is total and two tuples that compare equal are
    the same tuple, so the result does not depend on the algorithm. *)
Fixpoint sorted (l : list point) : list point :=
  match l with
  | [] => []
  | x :: l' => insert_sorted x (sorted l')
  end.

(** The pairs [(pts[i], pts[i+1])] for [i] in [range(len(pts)-1)]. *)
Definition segments (pts : list point) : list (point * point) :=
  combine pts (tl pts).

(** The loop test [t0 <= temp <= t1]. *)
Definition brackets (temp : Q) (s : point * point) : bool :=
  Qle_bool (inject_Z (fst (fst s))) temp && Qle_bool temp (inject_Z (fst (snd s))).

(** The value returned from inside the loop,
    [p0 + (p1-p0)*(temp-t0)/(t1-t0)]; the division raises when
    [t1 - t0] is zero. *)
Definition segment_value (temp : Q) (s : point * point) : result Q :=
  let '((t0, p0), (t1, p1)) := s in
  if (t1 - t0 =? 0)%Z then Raise ZeroDivisionError
  else Return (inject_Z p0
               + inject_Z (p1 - p0) * (temp - inject_Z t0) / inject_Z (t1 - t0)).

(** [pts[-1][1]]. *)
Definition last_pct (pts : list point) : result Q :=
  match pts with
  | [] => Raise IndexError
  | _ :: _ => Return (inject_Z (snd (last pts (0, 0)%Z)))
  end.

(** [FanCurveWidget.interpolate]. *)
Definition interpolate (points : list point) (temp : Q) : result Q :=
  let pts := sorted points in
  match find (brackets temp) (segments pts) with
  | Some s => segment_value temp s
  | None => last_pct pts
  end.

(** [int(x)] on a float: truncation toward zero. *)
Definition py_int (x : Q) : Z :=
  if Qle_bool 0 x then Qfloor x else Qceiling x.

(** The curve a window starts with. *)
Definition default_curve : list point := [(20, 31); (60, 58); (100, 100)]%Z.

(* ================================================================= *)
(** ** The window and its operations *)

(** What [get_temperatures] returns: [(cpu_temp, gpu_temp)], each
    possibly [None]. *)
Definition sample : Type := (option Q * option Q)%type.

Section Controller.

  (** The BLE client object ([BleakClient]) is an external collaborator:
      the program only reads [is_connected] and calls
      [write_gatt_char], which returns or raises and may change the
      client object. *)
Variable Client : Type.
Variable is_connected : Client -> bool.
Variable write_gatt_char : Client -> packet -> Client * result unit.

  (** The attributes of [MainWindow] that the controller reads or writes.
      [curve_points] is the one list object shared with the curve widget.
      [tx_trace] is not an attribute of the program: it records the packet
      of every call of [write_gatt_char], oldest first. *)
Record MainWindow : Type := mkWindow {
    client : option Client;
    curve_points : list point;
    curve_mode_active : bool;
    last_cpu_temp : option Q;
    last_gpu_temp : option Q;
    fan_slider : nat;
    pump_slider : nat;
    rgb_mode : RGBMode;
    rgb_color : Z * Z * Z;
    tx_trace : list packet
  }.

Definition set_client (c : option Client) (w : MainWindow) : MainWindow :=
    mkWindow c (curve_points w) (curve_mode_active w) (last_cpu_temp w)
             (last_gpu_temp w) (fan_slider w) (pump_slider w) (rgb_mode w)
             (rgb_color w) (tx_trace w).

Definition set_curve_mode_active (b : bool) (w : MainWindow) : MainWindow :=
    mkWindow (client w) (curve_points w) b (last_cpu_temp w)
             (last_gpu_temp w) (fan_slider w) (pump_slider w) (rgb_mode w)
             (rgb_color w) (tx_trace w).

Definition set_last_cpu_temp (t : option Q) (w : MainWindow) : MainWindow :=
    mkWindow (client w) (curve_points w) (curve_mode_active w) t
             (last_gpu_temp w) (fan_slider w) (pump_slider w) (rgb_mode w)
             (rgb_color w) (tx_trace w).

Definition set_last_gpu_temp (t : option Q) (w : MainWindow) : MainWindow :=
    mkWindow (client w) (curve_points w) (curve_mode_active w)
             (last_cpu_temp w) t (fan_slider w) (pump_slider w) (rgb_mode w)
             (rgb_color w) (tx_trace w).

Definition log_write (p : packet) (w : MainWindow) : MainWindow :=
    mkWindow (client w) (curve_points w) (curve_mode_active w)
             (last_cpu_temp w) (last_gpu_temp w) (fan_slider w)
             (pump_slider w) (rgb_mode w) (rgb_color w) (tx_trace w ++ [p]).

  (** Computations on the window: they return or raise, and the changes
      made before an exception stay. *)
Definition M (A : Type) : Type := MainWindow -> result A * MainWindow.

Definition ret {A} (a : A) : M A := fun w => (Return a, w).

Definition bind {A B} (m : M A) (k : A -> M B) : M B :=
    fun w =>
      match m w with
      | (Return a, w') => k a w'
      | (Raise e, w') => (Raise e, w')
      end.

Definition lift {A} (r : result A) : M A := fun w => (r, w).

Definition get : M MainWindow := fun w => (Return w, w).

Definition modify (f : MainWindow -> MainWindow) : M unit :=
    fun w => (Return tt, f w).

Notation "x <- m ;; k" := (bind m (fun x => k))
    (at level 61, m at next level, right associativity).
Notation "m ;;; k" := (bind m (fun _ => k))
    (at level 61, right associativity).

  (** [await client.write_gatt_char(NordicUART.CHAR_TX, packet)]: the call
      is recorded, the client object becomes what the transport made of
      it, and the transport's outcome is the outcome of the call. *)
Definition call_write_gatt_char (c : Client) (p : packet) : M unit :=
    fun w =>
      let '(c', r) := write_gatt_char c p in
      (r, set_client (Some c') (log_write p w)).

Definition write_fan_mode (c : Client) (duty : Z) : M unit :=
    p <- lift (fan_packet duty) ;; call_write_gatt_char c p.

Definition write_pump_mode (c : Client) (voltage : PumpVoltage) : M unit :=
    p <- lift (pump_packet voltage) ;; call_write_gatt_char c p.

Definition write_rgb_mode (c : Client) (mode : RGBMode) (color : Z * Z * Z)
    : M unit :=
    p <- lift (rgb_packet mode color) ;; call_write_gatt_char c p.

  (** [self.client and self.client.is_connected]: the session the guard
      lets through, if any. *)
Definition session (w : MainWindow) : option Client :=
    match client w with
    | Some c => if is_connected c then Some c else None
    | None => None
    end.

Definition connected (w : MainWindow) : bool :=
    match session w with Some _ => true | None => false end.

  (** [l[i]] for a list index that is not negative. *)
Definition index {A} (l : list A) (i : nat) : result A :=
    match nth_error l i with
    | Some a => Return a
    | None => Raise IndexError
    end.

  (** [MainWindow.set_default_fan_and_pump]. *)
Definition set_default_fan_and_pump : M unit :=
    w <- get ;;
    match session w with
    | None => ret tt
    | Some c =>
        write_fan_mode c 150 ;;;
        write_pump_mode c V8
    end.

  (** [MainWindow.update_temperatures]; [s] is what the sensor read gave
      ([(None, None)] when it raised). *)
Definition update_temperatures (s : sample) : M unit :=
    let '(cpu, gpu) := s in
    match cpu with
     | Some t => modify (set_last_cpu_temp (Some t))
     | None => ret tt
     end ;;;
    match gpu with
     | Some t => modify (set_last_gpu_temp (Some t))
     | None => ret tt
     end ;;;
    w <- get ;;
    match curve_mode_active w, last_cpu_temp w with
    | true, Some t =>
        match session w with
        | None => ret tt
        | Some c =>
            pct <- lift (interpolate (curve_points w) t) ;;
            write_fan_mode c (py_int pct)
        end
    | _, _ => ret tt
    end.

  (** [MainWindow.apply_fan_and_pump]. *)
Definition apply_fan_and_pump : M unit :=
    w <- get ;;
    match session w with
    | None => ret tt
    | Some c =>
        modify (set_curve_mode_active false) ;;;
        duty <- lift (index [80; 150; 255]%Z (fan_slider w)) ;;
        write_fan_mode c duty ;;;
        v <- lift (index [V7; V8; V11; V12] (pump_slider w)) ;;
        write_pump_mode c v
    end.

  (** [MainWindow.apply_rgb]. *)
Definition apply_rgb : M unit :=
    w <- get ;;
    match session w with
    | None => ret tt
    | Some c =>
        let mode := rgb_mode w in
        let color := rgb_color w in
        if RGBMode_eqb mode RAINBOW
        then write_rgb_mode c mode (0, 0, 0)%Z
        else write_rgb_mode c mode color
    end.

  (** [MainWindow.apply_curve]; [s] is what [get_temperatures()] gave. *)
Definition apply_curve (s : sample) : M unit :=
    w <- get ;;
    match session w with
    | None => ret tt
    | Some c =>
        modify (set_curve_mode_active true) ;;;
        match fst s with
        | None => ret tt
        | Some cpu =>
            pct <- lift (interpolate (curve_points w) cpu) ;;
            write_fan_mode c (py_int pct)
        end
    end.

  (** The operations that can send a command. *)
Inductive Intent : Type :=
  | ApplyManual
  | ApplyRgb
  | ApplyCurve (s : sample)
  | DefaultBringUp
  | Tick (s : sample).

Definition run (i : Intent) : M unit :=
    match i with
    | ApplyManual => apply_fan_and_pump
    | ApplyRgb => apply_rgb
    | ApplyCurve s => apply_curve s
    | DefaultBringUp => set_default_fan_and_pump
    | Tick s => update_temperatures s
    end.

End Controller.

Arguments mkWindow {Client}.

(* ================================================================= *)
(** ** A concrete transport for closed examples *)

(** A client object reduced to what the program can see of it: whether
    the link is up, and whether the device end accepts a write.  A refused
    write raises and leaves the link as it is (a GATT write error is not
    a disconnection). *)
Record TestClient : Type := mkTestClient {
  link_up : bool;
  accepts_writes : bool
}.

Definition test_write_gatt_char (c : TestClient) (p : packet)
  : TestClient * result unit :=
  (c, if accepts_writes c then Return tt else Raise BleakError).

(** A window as [MainWindow.__init__] leaves it, but for the client, the
    mode flag and the last CPU temperature. *)
Definition test_window (c : option TestClient) (active : bool)
  (cpu : option Q) : MainWindow TestClient :=
  mkWindow c default_curve active cpu None 0%nat 0%nat STATIC
           (255, 0, 0)%Z [].

(* ================================================================= *)
(** ** Notions used by the statements *)

(** [n] is an integer nearest to [x] (whatever the rule for ties). *)
Definition nearest_integer (x : Q) (n : Z) : Prop :=
  Qabs (x - inject_Z n) <= 1 # 2.

(** The sticky update of one sensor slot. *)
Definition sticky (new old : option Q) : option Q :=
  match new with
  | Some t => Some t
  | None => old
  end.

(** The window after the two sticky updates of a tick. *)
Definition store_sample {Client : Type} (s : sample) (w : MainWindow Client)
  : MainWindow Client :=
  set_last_gpu_temp (sticky (snd s) (last_gpu_temp w))
    (set_last_cpu_temp (sticky (fst s) (last_cpu_temp w)) w).

(** The three commands of the device, to speak of the three [write_*]
    functions at once. *)
Inductive command : Type :=
| Fan (duty : Z)
| Pump (voltage : PumpVoltage)
| Rgb (mode : RGBMode) (color : Z * Z * Z).

Definition encode (cmd : command) : result packet :=
  match cmd with
  | Fan duty => fan_packet duty
  | Pump voltage => pump_packet voltage
  | Rgb mode color => rgb_packet mode color
  end.

Definition send {Client : Type}
  (write_gatt_char : Client -> packet -> Client * result unit)
  (c : Client) (cmd : command) : M Client unit :=
  match cmd with
  | Fan duty => write_fan_mode write_gatt_char c duty
  | Pump voltage => write_pump_mode write_gatt_char c voltage
  | Rgb mode color => write_rgb_mode write_gatt_char c mode color
  end.

(** A computation leaves the attribute [f] of the window as it was. *)
Definition preserves {Client A B : Type} (f : MainWindow Client -> B)
  (m : M Client A) : Prop :=
  forall w, f (snd (m w)) = f w.

(** Lexicographic order on points, as a proposition. *)
Definition tuple_le (a b : point) : Prop := tuple_leb a b = true.

(** Ascending temperatures with no repetition. *)
Definition temp_lt (a b : point) : Prop := (fst a < fst b)%Z.

(** No pair of neighbouring points of [pts] has [temp] between its
    temperatures. *)
Definition no_bracketing_segment (pts : list point) (temp : Q) : Prop :=
  forall s, In s (segments pts) -> brackets temp s = false.

(* ================================================================= *)
(** ** The curve editor: [FanCurveWidget]'s mouse handlers *)

(** The widget's two attributes that the handlers use.  [points] is the
    list the window's [curve_points] names too. *)
Record FanCurveWidget : Type := mkWidget {
  points : list point;
  selected : option nat
}.

(** Python's [max(a, b)] and [min(a, b)]: the first argument unless the
    second is strictly greater (smaller). *)
Definition py_max (a b : Q) : Q := if Qle_bool b a then a else b.

Definition py_min (a b : Q) : Q := if Qle_bool a b then a else b.

(** [l[i] = v] for an index that is not negative. *)
Fixpoint setitem {A : Type} (l : list A) (i : nat) (v : A)
  : result (list A) :=
  match l, i with
  | [], _ => Raise IndexError
  | _ :: l', O => Return (v :: l')
  | a :: l', S i' =>
      match setitem l' i' v with
      | Return l'' => Return (a :: l'')
      | Raise e => Raise e
      end
  end.

(** The test of [mousePressEvent] for one point: the click [(x, y)] is
    within 6 pixels of the point's mark in a widget of size [w] by [h]. *)
Definition near_mark (w h x y : Z) (pt : point) : bool :=
  let '(t, p) := pt in
  let px := 40 + inject_Z (t - 20) / inject_Z (100 - 20) * inject_Z (w - 50) in
  let py := inject_Z (h - 40) - inject_Z p / 100 * inject_Z (h - 50) in
  Qle_bool (Qabs (px - inject_Z x)) 6 && Qle_bool (Qabs (py - inject_Z y)) 6.

(** The loop of [mousePressEvent] over [enumerate(self.points)], from
    index [i] on. *)
Fixpoint first_near (w h x y : Z) (i : nat) (pts : list point) : option nat :=
  match pts with
  | [] => None
  | pt :: pts' =>
      if near_mark w h x y pt then Some i
      else first_near w h x y (S i) pts'
  end.

(** [FanCurveWidget.mousePressEvent], for a widget of size [w] by [h] and
    a click at [(x, y)]. *)
Definition mousePressEvent (w h x y : Z) (fw : FanCurveWidget)
  : FanCurveWidget :=
  match first_near w h x y 0 (points fw) with
  | Some i => mkWidget (points fw) (Some i)
  | None => fw
  end.

(** [FanCurveWidget.mouseMoveEvent]. *)
Definition mouseMoveEvent (w h x y : Z) (fw : FanCurveWidget)
  : result FanCurveWidget :=
  match selected fw with
  | None => Return fw
  | Some i =>
      let x := Z.min (Z.max x 40) (w - 10) in
      let y := Z.min (Z.max y 10) (h - 40) in
      if (w - 50 =? 0)%Z then Raise ZeroDivisionError else
      let t := 20 + inject_Z (x - 40) / inject_Z (w - 50) * inject_Z (100 - 20) in
      if (h - 50 =? 0)%Z then Raise ZeroDivisionError else
      let p := inject_Z (h - 40 - y) / inject_Z (h - 50) * 100 in
      match setitem (points fw) i
              (py_int (py_min (py_max t 20) 100),
               py_int (py_min (py_max p 0) 100)) with
      | Return pts => Return (mkWidget pts (Some i))
      | Raise e => Raise e
      end
  end.

(** [FanCurveWidget.mouseReleaseEvent]. *)
Definition mouseReleaseEvent (fw : FanCurveWidget) : FanCurveWidget :=
  mkWidget (points fw) None.

(** A mouse event with the widget's size at the time it arrives. *)
Inductive MouseEvent : Type :=
| Press (w h x y : Z)
| Move (w h x y : Z)
| Release.

Definition handle (ev : MouseEvent) (fw : FanCurveWidget)
  : result FanCurveWidget :=
  match ev with
  | Press w h x y => Return (mousePressEvent w h x y fw)
  | Move w h x y => mouseMoveEvent w h x y fw
  | Release => Return (mouseReleaseEvent fw)
  end.

(** Events handled one after the other, up to the first exception. *)
Fixpoint handle_all (evs : list MouseEvent) (fw : FanCurveWidget)
  : result FanCurveWidget :=
  match evs with
  | [] => Return fw
  | ev :: evs' =>
      match handle ev fw with
      | Return fw' => handle_all evs' fw'
      | Raise e => Raise e
      end
  end.

(** The rectangle the editor keeps the points in. *)
Definition in_box (pt : point) : Prop :=
  (20 <= fst pt <= 100)%Z /\ (0 <= snd pt <= 100)%Z.

(** The selection, when there is one, names a point of the list. *)
Definition selection_valid (fw : FanCurveWidget) : Prop :=
  match selected fw with
  | Some i => (i < length (points fw))%nat
  | None => True
  end.

(* ================================================================= *)
(** ** Discovery: [scan_devices] *)

(** What the program reads of a discovered device: [d.name], which may
    be [None], and [d.address]. *)
Module BLEDevice.
Record t : Type := mk {
  name : option String.string;
  address : String.string
}.
End BLEDevice.

(** [m in s] on Python strings: [m] occurs in [s] as a substring. *)
Fixpoint contains (m s : String.string) : bool :=
  String.prefix m s
  || match s with
     | String.EmptyString => false
     | String.String _ s' => contains m s'
     end.

(** The truth value of [d.name]: neither [None] nor the empty string. *)
Definition name_truthy (n : option String.string) : bool :=
  match n with
  | None => false
  | Some String.EmptyString => false
  | Some _ => true
  end.

(** The model names [scan_devices] looks for by default. *)
Definition default_models : list String.string :=
  ["LCT21001"%string; "LCT22002"%string].

(** [scan_devices(models)], given the list that
    [BleakScanner.discover()] returned. *)
Definition scan_devices (models : list String.string)
  (devices : list BLEDevice.t) : list (String.string * String.string) :=
  flat_map
    (fun d =>
       match BLEDevice.name d with
       | Some n =>
           if name_truthy (Some n) && existsb (fun m => contains m n) models
           then [(n, BLEDevice.address d)]
           else []
       | None => []
       end)
    devices.

(* ================================================================= *)
(** ** The sensor read: [get_temperatures] *)

(** What the program reads of the hardware monitor.  A hardware item has
    a type and sensors; its [Update()] may raise.  A sensor has a type, a
    name and a value that may be missing.  Opening and closing the
    computer may raise. *)
Module Hardware.

Inductive HardwareType : Type := Cpu | GpuNvidia | GpuAmd | OtherHardware.

Inductive SensorType : Type := Temperature | OtherSensor.

Record ISensor : Type := mkSensor {
  Sensor_Type : SensorType;
  Name : String.string;
  Value : option Q
}.

Record IHardware : Type := mkHardware {
  Hardware_Type : HardwareType;
  Update_raises : bool;
  Sensors : list ISensor
}.

Record Computer : Type := mkComputer {
  Open_raises : bool;
  Hardware : list IHardware;
  Close_raises : bool
}.

End Hardware.

(** [s.SensorType == Temperature and key in s.Name]. *)
Definition sensor_matches (key : String.string) (s : Hardware.ISensor) : bool :=
  match Hardware.Sensor_Type s with
  | Hardware.Temperature => contains key (Hardware.Name s)
  | Hardware.OtherSensor => false
  end.

(** The inner loops: each matching sensor overwrites the temperature. *)
Definition read_sensors (key : String.string)
  (sensors : list Hardware.ISensor) (temp : option Q) : option Q :=
  fold_left
    (fun temp s => if sensor_matches key s then Hardware.Value s else temp)
    sensors temp.

(** The body of the loop over the hardware, with its [try]: when
    [Update()] raises the item is skipped. *)
Definition read_hardware (temps : sample) (hw : Hardware.IHardware) : sample :=
  let '(cpu_temp, gpu_temp) := temps in
  if Hardware.Update_raises hw then (cpu_temp, gpu_temp)
  else
    match Hardware.Hardware_Type hw with
    | Hardware.Cpu =>
        (read_sensors "Package"%string (Hardware.Sensors hw) cpu_temp, gpu_temp)
    | Hardware.GpuNvidia | Hardware.GpuAmd =>
        (cpu_temp, read_sensors "Core"%string (Hardware.Sensors hw) gpu_temp)
    | Hardware.OtherHardware => (cpu_temp, gpu_temp)
    end.

(** [get_temperatures()]: any exception outside the inner [try] gives
    [(None, None)]. *)
Definition get_temperatures (comp : Hardware.Computer) : sample :=
  if Hardware.Open_raises comp then (None, None)
  else
    let temps := fold_left read_hardware (Hardware.Hardware comp) (None, None) in
    if Hardware.Close_raises comp then (None, None) else temps.

(** The sensors that count for a temperature, in the order in which they
    are visited: those of the hardware items of one of the types [types]
    whose [Update()] returns, that are temperature sensors with [key] in
    their name. *)
Definition visited_sensors (is_type : Hardware.HardwareType -> bool)
  (key : String.string) (hws : list Hardware.IHardware)
  : list Hardware.ISensor :=
  filter (sensor_matches key)
    (flat_map Hardware.Sensors
       (filter (fun hw => negb (Hardware.Update_raises hw)
                          && is_type (Hardware.Hardware_Type hw)) hws)).

Definition is_cpu (t : Hardware.HardwareType) : bool :=
  match t with Hardware.Cpu => true | _ => false end.

Definition is_gpu (t : Hardware.HardwareType) : bool :=
  match t with Hardware.GpuNvidia | Hardware.GpuAmd => true | _ => false end.

(** The value of the last sensor of a list, [d] for the empty list. *)
Definition pick (l : list Hardware.ISensor) (d : option Q) : option Q :=
  match rev l with
  | s :: _ => Hardware.Value s
  | [] => d
  end.

(** The value of the last sensor of a list, [None] for the empty list. *)
Definition last_value (l : list Hardware.ISensor) : option Q :=
  match rev l with
  | s :: _ => Hardware.Value s
  | [] => None
  end.

(* ================================================================= *)
(** ** More of the window *)

(** [MainWindow.on_mode_changed]: the page shown follows [index] (not
    modelled); going to page 0 switches automatic control off. *)
Definition on_mode_changed {Client : Type} (index : Z) : M Client unit :=
  if (index =? 0)%Z then modify (set_curve_mode_active false) else ret tt.

(** What happens to a window between two of its operations and by them:
    an operation runs (an exception ends that operation only), the mode
    page is changed, or the client object changes by itself (the link
    drops or comes back). *)
Inductive Event (Client : Type) : Type :=
| Op (i : Intent)
| ModeChanged (index : Z)
| LinkChanged (f : Client -> Client).

Arguments Op {Client} i.
Arguments ModeChanged {Client} index.
Arguments LinkChanged {Client} f.

Definition after_event {Client : Type}
  (is_connected : Client -> bool)
  (write_gatt_char : Client -> packet -> Client * result unit)
  (ev : Event Client) (w : MainWindow Client) : MainWindow Client :=
  match ev with
  | Op i => snd (run is_connected write_gatt_char i w)
  | ModeChanged index => snd (on_mode_changed index w)
  | LinkChanged f => set_client (option_map f (client w)) w
  end.

Definition after_events {Client : Type}
  (is_connected : Client -> bool)
  (write_gatt_char : Client -> packet -> Client * result unit)
  (evs : list (Event Client)) (w : MainWindow Client) : MainWindow Client :=
  fold_left (fun w ev => after_event is_connected write_gatt_char ev w) evs w.

(** The samples of the ticks among the events, in order. *)
Definition tick_samples {Client : Type} (evs : list (Event Client))
  : list sample :=
  flat_map (fun ev => match ev with Op (Tick s) => [s] | _ => [] end) evs.

(** A well-formed frame of the device protocol. *)
Definition is_frame (p : packet) : Prop :=
  length p = 8%nat /\ nth 0 p 0%Z = 0xFE%Z /\ nth 7 p 0%Z = 0xEF%Z
  /\ Forall (fun b => (0 <= b <= 255)%Z) p.

(** The fan frame for a duty. *)
Definition fan_frame (d : Z) : packet :=
  [0xFE; 0x1B; if (d =? 0)%Z then 0x00 else 0x01; d; 0; 0; 0; 0xEF]%Z.

(** The pump frame for a voltage. *)
Definition pump_frame (v : PumpVoltage) : packet :=
  [0xFE; 0x1C; 0x01; 100; PumpVoltage_int v; 0; 0; 0xEF]%Z.

(** The RGB frame for a mode and a colour. *)
Definition rgb_frame (m : RGBMode) (color : Z * Z * Z) : packet :=
  let '(r, g, b) := color in
  [0xFE; 0x1E; 0x01; r; g; b; RGBMode_int m; 0xEF]%Z.

(** A computation only appends to the trace, and what it appends
    satisfies [P]. *)
Definition appends {Client A : Type} (P : packet -> Prop) (m : M Client A)
  : Prop :=
  forall w, exists l, tx_trace (snd (m w)) = tx_trace w ++ l /\ Forall P l.

(** An attribute of the window that a call of the transport leaves
    alone. *)
Definition transport_blind {Client B : Type} (f : MainWindow Client -> B)
  : Prop :=
  forall c p w, f (set_client c (log_write p w)) = f w.

(** An event that is not an operation of the user: a tick, a change of
    the mode page, or a change of the link. *)
Definition passive {Client : Type} (ev : Event Client) : Prop :=
  match ev with
  | Op (Tick _) => True
  | Op _ => False
  | ModeChanged _ => True
  | LinkChanged _ => True
  end.

(** An event that leaves the client object as it is. *)
Definition link_steady {Client : Type} (ev : Event Client) : Prop :=
  match ev with
  | LinkChanged _ => False
  | _ => True
  end.

(** The second point is at a higher temperature and asks for at least as
    much duty. *)
Definition rising (a b : point) : Prop :=
  (fst a < fst b)%Z /\ (snd a <= snd b)%Z.

(* ================================================================= *)
(** ** Proof steps for the window's computations *)

Ltac unfold_ops :=
  unfold run, update_temperatures, apply_fan_and_pump, apply_rgb,
    apply_curve, set_default_fan_and_pump, send, write_fan_mode,
    write_pump_mode, write_rgb_mode, call_write_gatt_char,
    bind, ret, get, modify, lift, index in *.

Ltac split_match :=
  match goal with
  | |- context [match ?x with _ => _ end] => destruct x eqn:?
  end.

(* ================================================================= *)
(** * Properties *)

Unset Implicit Arguments.

(** ** Sorting *)

Lemma tuple_leb_total (a b : point) :
  tuple_leb a b = false -> tuple_leb b a = true.
Proof.
  unfold tuple_leb. destruct a as [ta pa], b as [tb pb]. simpl.
  intros H. apply orb_false_iff in H. destruct H as [H1 H2].
  apply Z.ltb_ge in H1.
  destruct (Z.eqb_spec ta tb) as [->|Hne].
  - simpl in H2. apply Z.leb_gt in H2.
    rewrite Z.eqb_refl. simpl.
    apply orb_true_iff. right. apply Z.leb_le. lia.
  - apply orb_true_iff. left. apply Z.ltb_lt. lia.
Qed.

Lemma tuple_le_fst (a b : point) : tuple_le a b -> (fst a <= fst b)%Z.
Proof.
  unfold tuple_le, tuple_leb. intros H.
  apply orb_true_iff in H. destruct H as [H|H].
  - apply Z.ltb_lt in H. lia.
  - apply andb_true_iff in H. destruct H as [H _].
    apply Z.eqb_eq in H. lia.
Qed.

Lemma tuple_le_trans (a b c : point) :
  tuple_le a b -> tuple_le b c -> tuple_le a c.
Proof.
  unfold tuple_le, tuple_leb.
  destruct a as [ta pa], b as [tb pb], c as [tc pc]. simpl.
  rewrite !orb_true_iff, !andb_true_iff, !Z.ltb_lt, !Z.eqb_eq, !Z.leb_le.
  lia.
Qed.

Lemma insert_sorted_perm (x : point) (l : list point) :
  Permutation (x :: l) (insert_sorted x l).
Proof.
  induction l as [|y l IH]; simpl.
  - apply Permutation_refl.
  - destruct (tuple_leb x y).
    + apply Permutation_refl.
    + eapply perm_trans; [apply perm_swap|].
      apply perm_skip. exact IH.
Qed.

Lemma sorted_perm (l : list point) : Permutation l (sorted l).
Proof.
  induction l as [|x l IH]; simpl.
  - apply perm_nil.
  - eapply perm_trans; [apply perm_skip; exact IH|].
    apply insert_sorted_perm.
Qed.

Lemma insert_sorted_HdRel (a x : point) (l : list point) :
  tuple_le a x -> HdRel tuple_le a l -> HdRel tuple_le a (insert_sorted x l).
Proof.
  intros Hax Hal. destruct l as [|y l]; simpl.
  - constructor. exact Hax.
  - destruct (tuple_leb x y).
    + constructor. exact Hax.
    + constructor. inversion Hal; assumption.
Qed.

Lemma insert_sorted_Sorted (x : point) (l : list point) :
  Sorted tuple_le l -> Sorted tuple_le (insert_sorted x l).
Proof.
  induction 1 as [|y l Hs IH Hhd]; simpl.
  - repeat constructor.
  - destruct (tuple_leb x y) eqn:E.
    + constructor; [constructor; assumption|]. constructor. exact E.
    + constructor; [exact IH|].
      apply insert_sorted_HdRel; [|exact Hhd].
      apply tuple_leb_total. exact E.
Qed.

Lemma sorted_Sorted (l : list point) : Sorted tuple_le (sorted l).
Proof.
  induction l as [|x l IH]; simpl.
  - constructor.
  - apply insert_sorted_Sorted. exact IH.
Qed.

Lemma sorted_nonempty (l : list point) : l <> [] -> sorted l <> [].
Proof.
  intros Hl Hs. apply Hl.
  apply Permutation_nil. rewrite <- Hs. apply Permutation_sym, sorted_perm.
Qed.

Lemma tuple_le_antisym (a b : point) : tuple_le a b -> tuple_le b a -> a = b.
Proof.
  unfold tuple_le, tuple_leb. destruct a as [ta pa], b as [tb pb]. simpl.
  rewrite !orb_true_iff, !andb_true_iff, !Z.ltb_lt, !Z.eqb_eq, !Z.leb_le.
  intros H1 H2. f_equal; lia.
Qed.

Lemma sorted_perm_unique (l1 l2 : list point) :
  StronglySorted tuple_le l1 -> StronglySorted tuple_le l2 ->
  Permutation l1 l2 -> l1 = l2.
Proof.
  intros H1. revert l2. induction H1 as [|a l1 Hs1 IH Ha]; intros l2 H2 Hp.
  - apply Permutation_nil in Hp. congruence.
  - destruct H2 as [|b l2 Hs2 Hb].
    + apply Permutation_sym, Permutation_nil in Hp. discriminate.
    + assert (E : a = b).
      { rewrite Forall_forall in Ha, Hb.
        assert (Hin1 : In a (b :: l2))
          by (eapply Permutation_in; [exact Hp|left; reflexivity]).
        assert (Hin2 : In b (a :: l1))
          by (eapply Permutation_in;
              [apply Permutation_sym; exact Hp|left; reflexivity]).
        destruct Hin1 as [->|Hin1]; [reflexivity|].
        destruct Hin2 as [->|Hin2]; [reflexivity|].
        apply tuple_le_antisym; [apply Ha|apply Hb]; assumption. }
      subst b. f_equal. apply IH; [exact Hs2|].
      eapply Permutation_cons_inv. exact Hp.
Qed.

(** Any ascending rearrangement of the list is the list [sorted] gives. *)
Lemma sorted_unique (l l' : list point) :
  Permutation l l' -> Sorted tuple_le l' -> l' = sorted l.
Proof.
  intros Hp Hs.
  assert (T : Relations_1.Transitive tuple_le)
    by (intros a b c; apply tuple_le_trans).
  apply sorted_perm_unique.
  - apply Sorted_StronglySorted; assumption.
  - apply Sorted_StronglySorted; [exact T|apply sorted_Sorted].
  - eapply perm_trans; [apply Permutation_sym; exact Hp|apply sorted_perm].
Qed.

(** With pairwise distinct temperatures the sorted list is strictly
    ascending in temperature. *)
Lemma sorted_strict (l : list point) :
  NoDup (map fst l) -> StronglySorted temp_lt (sorted l).
Proof.
  intros Hnd.
  assert (Hnd' : NoDup (map fst (sorted l))).
  { eapply Permutation_NoDup; [|exact Hnd].
    apply Permutation_map, sorted_perm. }
  assert (Hss : StronglySorted tuple_le (sorted l)).
  { apply Sorted_StronglySorted; [|apply sorted_Sorted].
    intros a b c. apply tuple_le_trans. }
  clear Hnd. induction Hss as [|a m Hss IH Hall].
  - constructor.
  - simpl in Hnd'. inversion Hnd' as [|? ? Hnotin Hnd'']; subst.
    constructor; [apply IH; exact Hnd''|].
    rewrite Forall_forall in *. intros b Hb.
    specialize (Hall b Hb). apply tuple_le_fst in Hall.
    unfold temp_lt.
    assert (fst a <> fst b).
    { intros E. apply Hnotin. rewrite E. apply in_map. exact Hb. }
    lia.
Qed.

(** ** Segments of a strictly ascending list *)

Lemma segments_cons2 (a b : point) (l : list point) :
  segments (a :: b :: l) = (a, b) :: segments (b :: l).
Proof. reflexivity. Qed.

Lemma segment_points (l : list point) (x y : point) :
  In (x, y) (segments l) -> In x l /\ In y (tl l).
Proof.
  unfold segments. intros H. split.
  - eapply in_combine_l; exact H.
  - eapply in_combine_r; exact H.
Qed.

Lemma segment_points_in (l : list point) (x y : point) :
  In (x, y) (segments l) -> In x l /\ In y l.
Proof.
  intros H. apply segment_points in H. destruct H as [Hx Hy].
  split; [exact Hx|]. destruct l; simpl in *; auto.
Qed.

Lemma strict_segment_lt (l : list point) (x y : point) :
  StronglySorted temp_lt l -> In (x, y) (segments l) -> temp_lt x y.
Proof.
  induction 1 as [|a m Hss IH Hall]; intros Hin.
  - destruct Hin.
  - destruct m as [|b m'].
    + destruct Hin.
    + rewrite segments_cons2 in Hin. destruct Hin as [E|Hin].
      * inversion E; subst. inversion Hall; assumption.
      * apply IH. exact Hin.
Qed.

Lemma segment_value_defined (temp : Q) (x y : point) :
  temp_lt x y -> exists v, segment_value temp (x, y) = Return v.
Proof.
  unfold temp_lt. destruct x as [t0 p0], y as [t1 p1]. simpl. intros H.
  destruct (Z.eqb_spec (t1 - t0) 0) as [E|_]; [lia|].
  eexists. reflexivity.
Qed.

Lemma find_all_false {A} (f : A -> bool) (l : list A) :
  (forall x, In x l -> f x = false) -> find f l = None.
Proof.
  induction l as [|a l IH]; intros H; simpl.
  - reflexivity.
  - rewrite (H a (or_introl eq_refl)). apply IH.
    intros x Hx. apply H. right. exact Hx.
Qed.

Lemma inject_Z_minus (a b : Z) : inject_Z (a - b) == inject_Z a - inject_Z b.
Proof.
  unfold Z.sub. rewrite inject_Z_plus, inject_Z_opp. reflexivity.
Qed.

Lemma inject_Z_diff_nonzero (a b : Z) : (a < b)%Z -> ~ inject_Z (b - a) == 0.
Proof.
  intros H E. change 0 with (inject_Z 0) in E.
  apply (proj1 (inject_Z_injective (b - a) 0)) in E. lia.
Qed.

(** At the right end of a segment the line takes the right point's
    value, at the left end the left point's. *)
Lemma line_at_right_end (t0 p0 t1 p1 : Z) (temp : Q) :
  (t0 < t1)%Z -> temp == inject_Z t1 ->
  inject_Z p0 + inject_Z (p1 - p0) * (temp - inject_Z t0) / inject_Z (t1 - t0)
  == inject_Z p1.
Proof.
  intros Hlt E. pose proof (inject_Z_diff_nonzero _ _ Hlt) as Hnz.
  rewrite E. rewrite inject_Z_minus in Hnz.
  rewrite !inject_Z_minus. field. exact Hnz.
Qed.

Lemma line_at_left_end (t0 p0 t1 p1 : Z) (temp : Q) :
  (t0 < t1)%Z -> temp == inject_Z t0 ->
  inject_Z p0 + inject_Z (p1 - p0) * (temp - inject_Z t0) / inject_Z (t1 - t0)
  == inject_Z p0.
Proof.
  intros Hlt E. pose proof (inject_Z_diff_nonzero _ _ Hlt) as Hnz.
  rewrite E. rewrite inject_Z_minus in Hnz.
  rewrite !inject_Z_minus. field. exact Hnz.
Qed.

Lemma brackets_iff (temp : Q) (x y : point) :
  brackets temp (x, y) = true <->
  inject_Z (fst x) <= temp /\ temp <= inject_Z (fst y).
Proof.
  unfold brackets. simpl. rewrite andb_true_iff, !Qle_bool_iff. tauto.
Qed.

(** In a strictly ascending list, the first segment that brackets [temp]
    gives the same value as any segment that brackets it. *)
Lemma first_bracket_value (l : list point) (temp : Q) (x y : point) :
  StronglySorted temp_lt l ->
  In (x, y) (segments l) -> brackets temp (x, y) = true ->
  exists s v v',
    find (brackets temp) (segments l) = Some s /\
    segment_value temp s = Return v /\
    segment_value temp (x, y) = Return v' /\
    v == v'.
Proof.
  induction 1 as [|a m Hss IH Hall]; intros Hin Hbr.
  - destruct Hin.
  - destruct m as [|b m']; [destruct Hin|].
    rewrite segments_cons2 in *. simpl find.
    assert (Hab : temp_lt a b) by (inversion Hall; assumption).
    destruct (brackets temp (a, b)) eqn:Eab.
    + destruct Hin as [E|Hin].
      * inversion E; subst x y.
        destruct (segment_value_defined temp _ _ Hab) as [v Hv].
        exists (a, b), v, v.
        split; [reflexivity|]. split; [exact Hv|]. split; [exact Hv|].
        reflexivity.
      * (* the queried segment starts where the first one ends *)
        pose proof (strict_segment_lt _ _ _ Hss Hin) as Hxy.
        apply brackets_iff in Eab. apply brackets_iff in Hbr.
        destruct Eab as [Ha Hb]. destruct Hbr as [Hx Hy].
        destruct (segment_points _ _ _ Hin) as [Hxin _].
        assert (Hbx : (fst b <= fst x)%Z).
        { destruct Hxin as [E|Hxin]; [rewrite E; apply Z.le_refl|].
          inversion Hss as [|? ? _ Hallb]; subst.
          rewrite Forall_forall in Hallb. specialize (Hallb x Hxin).
          unfold temp_lt in Hallb. lia. }
        assert (Hxb : fst x = fst b).
        { apply Z.le_antisymm; [|exact Hbx].
          rewrite Zle_Qle. eapply Qle_trans; eassumption. }
        assert (Et : temp == inject_Z (fst b)).
        { apply Qle_antisym; [exact Hb|]. rewrite <- Hxb. exact Hx. }
        clear IH.
        destruct a as [ta pa], b as [tb pb], x as [tx px], y as [ty py].
        unfold temp_lt in *. simpl in *. subst tx.
        assert (px = pb).
        { destruct Hxin as [E|Hxin]; [congruence|].
          inversion Hss as [|? ? _ Hallb]; subst.
          rewrite Forall_forall in Hallb. specialize (Hallb _ Hxin).
          unfold temp_lt in Hallb. simpl in Hallb. lia. }
        subst px. exists (ta, pa, (tb, pb)). unfold segment_value.
        destruct (Z.eqb_spec (tb - ta) 0) as [?|_]; [lia|].
        destruct (Z.eqb_spec (ty - tb) 0) as [?|_]; [lia|].
        do 2 eexists.
        split; [reflexivity|]. split; [reflexivity|]. split; [reflexivity|].
        rewrite (line_at_right_end _ pa _ pb _ Hab Et).
        rewrite (line_at_left_end _ pb _ py _ Hxy Et). reflexivity.
    + destruct Hin as [E|Hin].
      * inversion E; subst x y. congruence.
      * apply IH; assumption.
Qed.

(** ** The fan curve: [interpolate] *)

Lemma sorted_in (points : list point) (p : point) :
  In p (sorted points) -> In p points.
Proof.
  apply Permutation_in. apply Permutation_sym, sorted_perm.
Qed.

Lemma last_pct_defined (pts : list point) :
  pts <> [] -> last_pct pts = Return (inject_Z (snd (last pts (0, 0)%Z))).
Proof.
  destruct pts as [|p pts]; [congruence|reflexivity].
Qed.

Lemma interpolate_no_segment (points : list point) (temp : Q) :
  points <> [] ->
  no_bracketing_segment (sorted points) temp ->
  interpolate points temp
  = Return (inject_Z (snd (last (sorted points) (0, 0)%Z))).
Proof.
  intros Hne Hnb. unfold interpolate.
  rewrite (find_all_false _ _ Hnb).
  apply last_pct_defined, sorted_nonempty, Hne.
Qed.

Lemma above_all_no_segment (points : list point) (temp : Q) :
  Forall (fun p => inject_Z (fst p) < temp) points ->
  no_bracketing_segment (sorted points) temp.
Proof.
  intros Hall [x y] Hin. rewrite Forall_forall in Hall.
  apply segment_points_in in Hin. destruct Hin as [_ Hy].
  specialize (Hall y (sorted_in _ _ Hy)).
  destruct (brackets temp (x, y)) eqn:E; [|reflexivity].
  apply brackets_iff in E. destruct E as [_ E].
  exfalso. apply (Qlt_not_le _ _ Hall E).
Qed.

Lemma below_all_no_segment (points : list point) (temp : Q) :
  Forall (fun p => temp < inject_Z (fst p)) points ->
  no_bracketing_segment (sorted points) temp.
Proof.
  intros Hall [x y] Hin. rewrite Forall_forall in Hall.
  apply segment_points_in in Hin. destruct Hin as [Hx _].
  specialize (Hall x (sorted_in _ _ Hx)).
  destruct (brackets temp (x, y)) eqn:E; [|reflexivity].
  apply brackets_iff in E. destruct E as [E _].
  exfalso. apply (Qlt_not_le _ _ Hall E).
Qed.




(** C7.  For a non-empty curve and a temperature that no segment of
    neighbouring sorted points brackets, in particular a temperature above
    every point's or below every point's, [interpolate] returns the duty of
    the last point in sorted order. *)
Theorem interpolate_outside_returns_last
  (points : list point) (temp : Q) :
  points <> [] ->
  no_bracketing_segment (sorted points) temp
  \/ Forall (fun p => inject_Z (fst p) < temp) points
  \/ Forall (fun p => temp < inject_Z (fst p)) points ->
  interpolate points temp
  = Return (inject_Z (snd (last (sorted points) (0, 0)%Z))).
Proof.
  intros Hne [H|[H|H]]; apply interpolate_no_segment; try assumption.
  - apply above_all_no_segment. exact H.
  - apply below_all_no_segment. exact H.
Qed.

(** On the default curve, [interpolate(150)] is 100, and so is
    [interpolate(10)]. *)
Lemma interpolate_default_outside :
  interpolate default_curve 150 = Return 100
  /\ interpolate default_curve 10 = Return 100.
Proof.
  split.
  - apply (interpolate_outside_returns_last default_curve 150).
    + discriminate.
    + right. left. repeat constructor.
  - apply (interpolate_outside_returns_last default_curve 10).
    + discriminate.
    + right. right. repeat constructor.
Defined.

(** C10.  For a curve of at least one point whose temperatures are
    pairwise distinct, [interpolate] returns a value for every
    temperature: no division by zero, no index out of range. *)
Theorem interpolate_total (points : list point) (temp : Q) :
  points <> [] -> NoDup (map fst points) ->
  exists v, interpolate points temp = Return v.
Proof.
  intros Hne Hnd. unfold interpolate.
  destruct (find (brackets temp) (segments (sorted points))) as [[x y]|] eqn:E.
  - apply find_some in E. destruct E as [Hin _].
    apply segment_value_defined.
    eapply strict_segment_lt; [apply sorted_strict; exact Hnd|exact Hin].
  - eexists. apply last_pct_defined, sorted_nonempty, Hne.
Qed.

Lemma interpolate_total_default :
  exists v, interpolate default_curve 72 = Return v.
Proof.
  apply (interpolate_total default_curve 72).
  - discriminate.
  - simpl. repeat constructor; simpl; intuition discriminate.
Defined.

(** ** The packet codec *)

Lemma is_byte_iff (z : Z) : is_byte z = true <-> (0 <= z <= 255)%Z.
Proof.
  unfold is_byte. rewrite andb_true_iff, Z.leb_le, Z.ltb_lt. lia.
Qed.

Lemma fan_packet_bytes (d : Z) :
  is_byte d = true ->
  fan_packet d
  = Return [0xFE; 0x1B; if (d =? 0)%Z then 0x00 else 0x01; d; 0; 0; 0; 0xEF]%Z.
Proof.
  intros Hd. unfold fan_packet, bytearray, truthy, Commands.FAN.
  destruct (d =? 0)%Z; simpl; rewrite Hd; reflexivity.
Qed.

(** C5.  For a duty [d] in [[0,255]], the fan packet has exactly 8 bytes:
    0xFE, 0x1B, then 0x01 if [d > 0] and 0x00 otherwise, then [d], three
    zero bytes, and 0xEF. *)
Theorem fan_packet_layout (d : Z) :
  (0 <= d <= 255)%Z ->
  exists p,
    fan_packet d = Return p /\
    length p = 8%nat /\
    p = [0xFE; 0x1B; if (0 <? d)%Z then 0x01 else 0x00; d; 0; 0; 0; 0xEF]%Z.
Proof.
  intros Hd. eexists. split; [|split].
  - apply fan_packet_bytes. apply is_byte_iff. exact Hd.
  - reflexivity.
  - destruct (Z.eqb_spec d 0) as [->|Hne]; [reflexivity|].
    destruct (Z.ltb_spec 0 d) as [_|Hle]; [reflexivity|lia].
Qed.

Lemma fan_packet_layout_150 :
  exists p,
    fan_packet 150 = Return p /\
    length p = 8%nat /\
    p = [0xFE; 0x1B; 0x01; 150; 0; 0; 0; 0xEF]%Z.
Proof.
  apply (fan_packet_layout 150). lia.
Defined.

(** ** The range of the interpolated value *)

Lemma line_bounds (P0 P1 T0 T1 temp lo hi : Q) :
  T0 < T1 -> T0 <= temp -> temp <= T1 ->
  lo <= P0 -> P0 <= hi -> lo <= P1 -> P1 <= hi ->
  lo <= P0 + (P1 - P0) * (temp - T0) / (T1 - T0)
  /\ P0 + (P1 - P0) * (temp - T0) / (T1 - T0) <= hi.
Proof.
  intros Hlt H0 H1 Hl0 Hh0 Hl1 Hh1.
  assert (E : P0 + (P1 - P0) * (temp - T0) / (T1 - T0)
              == (P0 * (T1 - temp) + P1 * (temp - T0)) / (T1 - T0)).
  { field. lra. }
  rewrite E. split.
  - apply Qle_shift_div_l; [lra|]. nra.
  - apply Qle_shift_div_r; [lra|]. nra.
Qed.

Lemma last_in (l : list point) (d : point) : l <> [] -> In (last l d) l.
Proof.
  induction l as [|a l IH]; [congruence|]. intros _.
  destruct l as [|b l]; [left; reflexivity|].
  right. apply IH. discriminate.
Qed.

(** A curve with at least one point, pairwise distinct temperatures and
    duties between [lo] and [hi] gives a value between [lo] and [hi] at
    every temperature. *)
Lemma interpolate_range (points : list point) (temp : Q) (lo hi : Z) :
  points <> [] -> NoDup (map fst points) ->
  Forall (fun p => (lo <= snd p <= hi)%Z) points ->
  exists v,
    interpolate points temp = Return v
    /\ inject_Z lo <= v /\ v <= inject_Z hi.
Proof.
  intros Hne Hnd Hall. rewrite Forall_forall in Hall.
  unfold interpolate.
  destruct (find (brackets temp) (segments (sorted points)))
    as [[[t0 p0] [t1 p1]]|] eqn:E.
  - apply find_some in E. destruct E as [Hin Hbr].
    pose proof (strict_segment_lt _ _ _ (sorted_strict _ Hnd) Hin) as Hlt.
    unfold temp_lt in Hlt. simpl in Hlt.
    apply brackets_iff in Hbr. simpl in Hbr. destruct Hbr as [H0 H1].
    destruct (segment_points_in _ _ _ Hin) as [Hx Hy].
    pose proof (Hall _ (sorted_in _ _ Hx)) as B0.
    pose proof (Hall _ (sorted_in _ _ Hy)) as B1.
    simpl in B0, B1. simpl.
    destruct (Z.eqb_spec (t1 - t0) 0) as [?|_]; [lia|].
    eexists. split; [reflexivity|].
    rewrite !inject_Z_minus.
    apply line_bounds; try assumption; try (rewrite <- Zle_Qle; lia).
    rewrite <- Zlt_Qlt. exact Hlt.
  - pose proof (sorted_nonempty _ Hne) as Hs.
    rewrite (last_pct_defined _ Hs). eexists. split; [reflexivity|].
    pose proof (Hall _ (sorted_in _ _ (last_in _ (0, 0)%Z Hs))) as B.
    split; rewrite <- Zle_Qle; lia.
Qed.

Lemma py_int_byte (v : Q) : 0 <= v -> v <= 255 -> is_byte (py_int v) = true.
Proof.
  intros H0 H1. unfold py_int.
  rewrite (proj2 (Qle_bool_iff 0 v) H0).
  apply is_byte_iff. split.
  - change 0%Z with (Qfloor 0). apply Qfloor_resp_le. exact H0.
  - change 255%Z with (Qfloor 255). apply Qfloor_resp_le. exact H1.
Qed.

(** ** The controller *)

Section ControllerProperties.

Variable Client : Type.
Variable is_connected : Client -> bool.
Variable write_gatt_char : Client -> packet -> Client * result unit.

Lemma connected_session (w : MainWindow Client) :
  connected is_connected w = true <-> exists c, session is_connected w = Some c.
Proof.
  unfold connected. destruct (session is_connected w) as [c|].
  - split; [intros _; exists c; reflexivity|reflexivity].
  - split; [discriminate|intros [c Hc]; discriminate].
Qed.

Lemma not_connected_session (w : MainWindow Client) :
  connected is_connected w = false <-> session is_connected w = None.
Proof.
  unfold connected. destruct (session is_connected w).
  - split; discriminate.
  - split; reflexivity.
Qed.

Lemma session_client (w : MainWindow Client) (c : Client) :
  session is_connected w = Some c ->
  client w = Some c /\ is_connected c = true.
Proof.
  unfold session. destruct (client w) as [c0|]; [|discriminate].
  destruct (is_connected c0) eqn:E; [|discriminate].
  intros H. inversion H; subst. split; [reflexivity|exact E].
Qed.

(** What one call of the transport does to the window: the packet is
    logged and the client object replaced; nothing else. *)
Lemma call_write_gatt_char_eq (c : Client) (p : packet) (w : MainWindow Client) :
  call_write_gatt_char write_gatt_char c p w
  = (snd (write_gatt_char c p),
     set_client (Some (fst (write_gatt_char c p))) (log_write p w)).
Proof.
  unfold call_write_gatt_char. destruct (write_gatt_char c p). reflexivity.
Qed.

Lemma write_fan_mode_eq (c : Client) (duty : Z) (w : MainWindow Client) :
  is_byte duty = true ->
  let p := [0xFE; 0x1B; if (duty =? 0)%Z then 0x00 else 0x01; duty;
            0; 0; 0; 0xEF]%Z in
  write_fan_mode write_gatt_char c duty w
  = (snd (write_gatt_char c p),
     set_client (Some (fst (write_gatt_char c p))) (log_write p w)).
Proof.
  intros Hd p. unfold write_fan_mode, bind, lift.
  rewrite (fan_packet_bytes duty Hd). apply call_write_gatt_char_eq.
Qed.

(** Attributes that a send does not touch. *)
Lemma preserves_ret {A B} (f : MainWindow Client -> B) (a : A) :
  preserves f (ret (Client:=Client) a).
Proof. intros w. reflexivity. Qed.

Lemma preserves_lift {A B} (f : MainWindow Client -> B) (r : result A) :
  preserves f (lift (Client:=Client) r).
Proof. intros w. reflexivity. Qed.

Lemma preserves_bind {A B C} (f : MainWindow Client -> C)
  (m : M Client A) (k : A -> M Client B) :
  preserves f m -> (forall a, preserves f (k a)) -> preserves f (bind m k).
Proof.
  intros Hm Hk w. unfold bind. specialize (Hm w).
  destruct (m w) as [[a|e] w1]; simpl in *.
  - rewrite Hk. exact Hm.
  - exact Hm.
Qed.

Lemma call_write_gatt_char_mode (c : Client) (p : packet) :
  preserves (@curve_mode_active Client) (call_write_gatt_char write_gatt_char c p).
Proof. intros w. rewrite call_write_gatt_char_eq. reflexivity. Qed.

Lemma write_fan_mode_mode (c : Client) (duty : Z) :
  preserves (@curve_mode_active Client) (write_fan_mode write_gatt_char c duty).
Proof.
  apply preserves_bind; [apply preserves_lift|intros p].
  apply call_write_gatt_char_mode.
Qed.

Lemma write_pump_mode_mode (c : Client) (v : PumpVoltage) :
  preserves (@curve_mode_active Client) (write_pump_mode write_gatt_char c v).
Proof.
  apply preserves_bind; [apply preserves_lift|intros p].
  apply call_write_gatt_char_mode.
Qed.

(** C4.  When no session is connected, each operation that can send a
    command (apply-manual, apply-rgb, apply-curve, default bring-up, the
    automatic tick) returns normally and the transport's write operation
    is not called. *)
Theorem disconnected_is_noop (i : Intent) (w : MainWindow Client) :
  connected is_connected w = false ->
  fst (run is_connected write_gatt_char i w) = Return tt
  /\ tx_trace (snd (run is_connected write_gatt_char i w)) = tx_trace w
  /\ client (snd (run is_connected write_gatt_char i w)) = client w
  /\ curve_mode_active (snd (run is_connected write_gatt_char i w))
     = curve_mode_active w.
Proof.
  intros H. apply not_connected_session in H.
  destruct i as [| |[cpu gpu]| |[cpu gpu]]; unfold_ops; simpl.
  - rewrite H. auto.
  - rewrite H. auto.
  - rewrite H. auto.
  - rewrite H. auto.
  - destruct cpu, gpu; simpl;
      repeat split_match; simpl; try auto;
      unfold session in *; simpl in *; congruence.
Qed.

(** C8.  A temperature poll overwrites a sensor slot only when the new
    sample has a value for it: a sample with no CPU value and a GPU value
    of 72 leaves the stored CPU value as it was and stores 72 for the GPU,
    and symmetrically. *)
Theorem update_temperatures_sticky (w : MainWindow Client) :
  (forall cpu gpu,
     let w' := snd (update_temperatures is_connected write_gatt_char
                      (cpu, gpu) w) in
     last_cpu_temp w' = sticky cpu (last_cpu_temp w)
     /\ last_gpu_temp w' = sticky gpu (last_gpu_temp w))
  /\ (let w' := snd (update_temperatures is_connected write_gatt_char
                       (None, Some 72) w) in
      last_cpu_temp w' = last_cpu_temp w /\ last_gpu_temp w' = Some 72)
  /\ (let w' := snd (update_temperatures is_connected write_gatt_char
                       (Some 72, None) w) in
      last_cpu_temp w' = Some 72 /\ last_gpu_temp w' = last_gpu_temp w).
Proof.
  assert (G : forall cpu gpu,
     let w' := snd (update_temperatures is_connected write_gatt_char
                      (cpu, gpu) w) in
     last_cpu_temp w' = sticky cpu (last_cpu_temp w)
     /\ last_gpu_temp w' = sticky gpu (last_gpu_temp w)).
  { intros cpu gpu. unfold_ops.
    destruct cpu, gpu; simpl; repeat split_match; simpl; auto. }
  split; [exact G|]. split.
  - apply (G None (Some 72)).
  - apply (G (Some 72) None).
Qed.

(** C9, as amended.  While a session is connected, apply-manual sets the
    mode to Manual whatever it was before (and whether or not the writes
    that follow succeed); while none is connected it leaves the mode as it
    was. *)
Theorem apply_manual_mode (w : MainWindow Client) :
  curve_mode_active (snd (apply_fan_and_pump is_connected write_gatt_char w))
  = if connected is_connected w then false else curve_mode_active w.
Proof.
  unfold connected, apply_fan_and_pump.
  unfold bind at 1. unfold get at 1.
  destruct (session is_connected w) as [c|]; [|reflexivity].
  unfold bind at 1. unfold modify at 1.
  match goal with
  | |- curve_mode_active (snd (?m ?w1)) = _ =>
      assert (P : preserves (@curve_mode_active Client) m)
  end.
  { apply preserves_bind; [apply preserves_lift|intros duty].
    apply preserves_bind; [apply write_fan_mode_mode|intros _].
    apply preserves_bind; [apply preserves_lift|intros v].
    apply write_pump_mode_mode. }
  rewrite P. reflexivity.
Qed.

(** C2, as amended.  With a session connected, when the fresh read of
    apply-curve yields no CPU value, no command is sent and nothing
    changes but the mode, which is Automatic afterwards whatever it was
    before. *)
Theorem apply_curve_without_cpu (gpu : option Q) (w : MainWindow Client) :
  connected is_connected w = true ->
  apply_curve is_connected write_gatt_char (None, gpu) w
  = (Return tt, set_curve_mode_active true w)
  /\ tx_trace (set_curve_mode_active true w) = tx_trace w
  /\ curve_mode_active (set_curve_mode_active true w) = true.
Proof.
  intros H. apply connected_session in H. destruct H as [c Hc].
  unfold_ops. rewrite Hc. simpl. auto.
Qed.

(** The tick as one equation: the sample is stored, then, in automatic
    mode with a CPU temperature and a session, the curve is evaluated and
    its truncated value sent. *)
Lemma update_temperatures_eq (s : sample) (w : MainWindow Client) :
  update_temperatures is_connected write_gatt_char s w
  = let w1 := store_sample s w in
    match curve_mode_active w, last_cpu_temp w1, session is_connected w with
    | true, Some t, Some c =>
        match interpolate (curve_points w) t with
        | Return pct => write_fan_mode write_gatt_char c (py_int pct) w1
        | Raise e => (Raise e, w1)
        end
    | _, _, _ => (Return tt, w1)
    end.
Proof.
  destruct s as [[t|] [g|]], w as [cl pts mode cpu gpu fs ps rm rc tr];
    unfold update_temperatures, store_sample, bind, ret, get, modify, lift,
      session;
    simpl; destruct mode; try reflexivity;
    try (destruct cpu; try reflexivity);
    destruct cl as [c|]; try reflexivity;
    destruct (is_connected c); try reflexivity;
    destruct (interpolate pts _); reflexivity.
Qed.

(** C1, as amended.  On a tick in automatic mode with a CPU temperature
    known and a session connected, when [interpolate] returns a value
    whose integer part fits a byte, exactly one packet is written: the
    fan packet whose duty is [int(interpolate(last_cpu_temp))], the value
    truncated toward zero (not rounded to the nearest integer). *)
Theorem tick_sends_truncated_duty
  (s : sample) (w : MainWindow Client) (c : Client) (t v : Q) :
  curve_mode_active w = true ->
  session is_connected w = Some c ->
  sticky (fst s) (last_cpu_temp w) = Some t ->
  interpolate (curve_points w) t = Return v ->
  is_byte (py_int v) = true ->
  tx_trace (snd (update_temperatures is_connected write_gatt_char s w))
  = tx_trace w
    ++ [[0xFE; 0x1B; if (py_int v =? 0)%Z then 0x00 else 0x01; py_int v;
         0; 0; 0; 0xEF]%Z].
Proof.
  intros Hmode Hsess Hcpu Hv Hbyte.
  rewrite update_temperatures_eq. cbv zeta.
  rewrite Hmode, Hsess.
  change (last_cpu_temp (store_sample s w))
    with (sticky (fst s) (last_cpu_temp w)).
  rewrite Hcpu, Hv.
  rewrite (write_fan_mode_eq c (py_int v) (store_sample s w) Hbyte).
  reflexivity.
Qed.

(** The condition on the value holds for every temperature when the curve
    has at least one point, pairwise distinct temperatures and duties in
    [[0,255]] (the curves the editor produces have duties in [[0,100]]). *)
Lemma tick_on_valid_curve
  (s : sample) (w : MainWindow Client) (c : Client) (t : Q) :
  curve_mode_active w = true ->
  session is_connected w = Some c ->
  sticky (fst s) (last_cpu_temp w) = Some t ->
  curve_points w <> [] ->
  NoDup (map fst (curve_points w)) ->
  Forall (fun p => (0 <= snd p <= 255)%Z) (curve_points w) ->
  exists v,
    interpolate (curve_points w) t = Return v
    /\ is_byte (py_int v) = true
    /\ tx_trace (snd (update_temperatures is_connected write_gatt_char s w))
       = tx_trace w
         ++ [[0xFE; 0x1B; if (py_int v =? 0)%Z then 0x00 else 0x01; py_int v;
              0; 0; 0; 0xEF]%Z].
Proof.
  intros Hmode Hsess Hcpu Hne Hnd Hall.
  destruct (interpolate_range _ t 0 255 Hne Hnd Hall) as (v & Hv & H0 & H1).
  pose proof (py_int_byte v H0 H1) as Hbyte.
  exists v. split; [exact Hv|]. split; [exact Hbyte|].
  rewrite update_temperatures_eq. cbv zeta.
  rewrite Hmode, Hsess.
  change (last_cpu_temp (store_sample s w))
    with (sticky (fst s) (last_cpu_temp w)).
  rewrite Hcpu, Hv.
  rewrite (write_fan_mode_eq c (py_int v) (store_sample s w) Hbyte).
  reflexivity.
Qed.

(** C3, as amended.  When the transport's write fails during a send
    issued for a connected session, the transport's exception comes out
    of the send unchanged and the program itself does nothing about the
    connection: the mode and the client handle stay, and the session
    counts as connected afterwards exactly when the client object still
    says so. *)
Theorem send_failure_propagates
  (cmd : command) (w : MainWindow Client) (c c' : Client)
  (pkt : packet) (e : PyExc) :
  session is_connected w = Some c ->
  encode cmd = Return pkt ->
  write_gatt_char c pkt = (c', Raise e) ->
  let w' := snd (send write_gatt_char c cmd w) in
  fst (send write_gatt_char c cmd w) = Raise e
  /\ client w' = Some c'
  /\ connected is_connected w' = is_connected c'
  /\ curve_mode_active w' = curve_mode_active w
  /\ tx_trace w' = tx_trace w ++ [pkt].
Proof.
  intros _ Henc Hw. unfold connected, session.
  destruct cmd; simpl in Henc; unfold_ops; rewrite Henc, Hw; simpl;
    destruct (is_connected c'); auto.
Qed.

(** The same at the level of the automatic tick: a failed write ends the
    tick with the transport's exception. *)
Lemma tick_write_failure
  (s : sample) (w : MainWindow Client) (c c' : Client) (t v : Q) (e : PyExc) :
  curve_mode_active w = true ->
  session is_connected w = Some c ->
  sticky (fst s) (last_cpu_temp w) = Some t ->
  interpolate (curve_points w) t = Return v ->
  is_byte (py_int v) = true ->
  write_gatt_char c [0xFE; 0x1B; if (py_int v =? 0)%Z then 0x00 else 0x01;
                     py_int v; 0; 0; 0; 0xEF]%Z = (c', Raise e) ->
  let r := update_temperatures is_connected write_gatt_char s w in
  fst r = Raise e
  /\ client (snd r) = Some c'
  /\ curve_mode_active (snd r) = true.
Proof.
  intros Hmode Hsess Hcpu Hv Hbyte Hw.
  rewrite update_temperatures_eq. cbv zeta.
  rewrite Hmode, Hsess.
  change (last_cpu_temp (store_sample s w))
    with (sticky (fst s) (last_cpu_temp w)).
  rewrite Hcpu, Hv.
  rewrite (write_fan_mode_eq c (py_int v) (store_sample s w) Hbyte).
  rewrite Hw. simpl. auto.
Qed.

End ControllerProperties.

(** ** Closed instances *)

(** C1, as stated, fails: with the default curve and a last CPU
    temperature of 45 the curve gives 47.875; the duty written is 47,
    which is not an integer nearest to 47.875 (48 is). *)
Lemma tick_duty_is_not_rounded :
  let w := test_window (Some (mkTestClient true true)) true (Some 45) in
  curve_mode_active w = true
  /\ connected link_up w = true
  /\ last_cpu_temp w = Some 45
  /\ interpolate (curve_points w) 45 = Return (1915 # 40)
  /\ 1915 # 40 == 47.875
  /\ tx_trace (snd (update_temperatures link_up test_write_gatt_char
                      (None, None) w))
     = [[0xFE; 0x1B; 0x01; 47; 0; 0; 0; 0xEF]%Z]
  /\ ~ nearest_integer (1915 # 40) 47
  /\ nearest_integer (1915 # 40) 48.
Proof.
  repeat split.
  - intros H. vm_compute in H. apply H. reflexivity.
  - vm_compute. discriminate.
Qed.

Lemma tick_sends_truncated_duty_default :
  tx_trace (snd (update_temperatures link_up test_write_gatt_char
                   (None, None)
                   (test_window (Some (mkTestClient true true)) true
                      (Some 45))))
  = [[0xFE; 0x1B; 0x01; 47; 0; 0; 0; 0xEF]%Z].
Proof.
  apply (tick_sends_truncated_duty TestClient link_up test_write_gatt_char
           (None, None)
           (test_window (Some (mkTestClient true true)) true (Some 45))
           (mkTestClient true true) 45 (1915 # 40));
    reflexivity.
Defined.

(** C2, as stated, fails: started in Manual mode with a session
    connected, apply-curve with no CPU value leaves the mode Automatic. *)
Lemma apply_curve_without_cpu_changes_mode :
  let w := test_window (Some (mkTestClient true true)) false None in
  connected link_up w = true
  /\ curve_mode_active w = false
  /\ curve_mode_active
       (snd (apply_curve link_up test_write_gatt_char (None, None) w))
     = true.
Proof. repeat split. Qed.

Lemma apply_curve_without_cpu_default :
  let w := test_window (Some (mkTestClient true true)) false None in
  apply_curve link_up test_write_gatt_char (None, Some 72) w
  = (Return tt, set_curve_mode_active true w)
  /\ tx_trace (set_curve_mode_active true w) = tx_trace w
  /\ curve_mode_active (set_curve_mode_active true w) = true.
Proof.
  apply (apply_curve_without_cpu TestClient link_up test_write_gatt_char
           (Some 72)
           (test_window (Some (mkTestClient true true)) false None)).
  reflexivity.
Defined.

(** C3, as stated, fails: a write that the transport refuses while the
    link stays up ends the send, and the tick that issued it, with the
    transport's exception, and the session is still connected. *)
Lemma write_failure_keeps_session :
  let c := mkTestClient true false in
  let w := test_window (Some c) true (Some 45) in
  let sent := send test_write_gatt_char c (Fan 150) w in
  let tick := update_temperatures link_up test_write_gatt_char
                (None, None) w in
  connected link_up w = true
  /\ fst sent = Raise BleakError
  /\ connected link_up (snd sent) = true
  /\ fst tick = Raise BleakError
  /\ connected link_up (snd tick) = true
  /\ client (snd tick) = Some c.
Proof. repeat split. Qed.

Lemma send_failure_propagates_default :
  let c := mkTestClient true false in
  let w := test_window (Some c) true (Some 45) in
  let w' := snd (send test_write_gatt_char c (Fan 150) w) in
  fst (send test_write_gatt_char c (Fan 150) w) = Raise BleakError
  /\ client w' = Some c
  /\ connected link_up w' = link_up c
  /\ curve_mode_active w' = curve_mode_active w
  /\ tx_trace w' = tx_trace w ++ [[0xFE; 0x1B; 0x01; 150; 0; 0; 0; 0xEF]%Z].
Proof.
  apply (send_failure_propagates TestClient link_up test_write_gatt_char
           (Fan 150)
           (test_window (Some (mkTestClient true false)) true (Some 45))
           (mkTestClient true false) (mkTestClient true false)
           [0xFE; 0x1B; 0x01; 150; 0; 0; 0; 0xEF]%Z BleakError);
    reflexivity.
Defined.

Lemma disconnected_is_noop_default :
  let w := test_window (Some (mkTestClient false true)) true None in
  let r := run link_up test_write_gatt_char (Tick (Some 45, None)) w in
  fst r = Return tt /\ tx_trace (snd r) = tx_trace w
  /\ client (snd r) = client w
  /\ curve_mode_active (snd r) = curve_mode_active w.
Proof.
  apply (disconnected_is_noop TestClient link_up test_write_gatt_char
           (Tick (Some 45, None))
           (test_window (Some (mkTestClient false true)) true None)).
  reflexivity.
Defined.

(** C9, as stated, fails: with the link down, apply-manual returns at its
    guard and an Automatic mode stays Automatic. *)
Lemma apply_manual_while_disconnected :
  let w := test_window (Some (mkTestClient false true)) true (Some 45) in
  curve_mode_active w = true
  /\ connected link_up w = false
  /\ fst (apply_fan_and_pump link_up test_write_gatt_char w) = Return tt
  /\ curve_mode_active
       (snd (apply_fan_and_pump link_up test_write_gatt_char w))
     = true.
Proof. repeat split. Qed.

(* ================================================================= *)
(** * Further properties *)

(** ** The packet codec, all three commands *)

Lemma bytearray_inv (l p : list Z) :
  bytearray l = Return p ->
  p = l /\ Forall (fun b => (0 <= b <= 255)%Z) l.
Proof.
  unfold bytearray. destruct (forallb is_byte l) eqn:E; [|discriminate].
  intros H. inversion H; subst. split; [reflexivity|].
  rewrite forallb_forall in E. apply Forall_forall.
  intros b Hb. apply is_byte_iff, E, Hb.
Qed.

Lemma bytearray_raises (l : list Z) (e : PyExc) :
  bytearray l = Raise e -> e = ValueError.
Proof.
  unfold bytearray. destruct (forallb is_byte l); [discriminate|].
  intros H. inversion H. reflexivity.
Qed.

Lemma fan_packet_out_of_range (d : Z) :
  ~ (0 <= d <= 255)%Z -> fan_packet d = Raise ValueError.
Proof.
  intros Hd. unfold fan_packet, bytearray.
  assert (E : is_byte d = false).
  { destruct (is_byte d) eqn:E; [|reflexivity].
    apply is_byte_iff in E. contradiction. }
  unfold Commands.FAN. destruct (truthy d); simpl; rewrite E; reflexivity.
Qed.

Lemma fan_packet_inv (d : Z) (p : packet) :
  fan_packet d = Return p -> p = fan_frame d /\ (0 <= d <= 255)%Z.
Proof.
  intros H.
  assert (Hd : (0 <= d <= 255)%Z).
  { destruct (Z_le_dec 0 d) as [H0|H0], (Z_le_dec d 255) as [H1|H1];
      try (split; assumption);
      rewrite fan_packet_out_of_range in H by lia; discriminate. }
  split; [|exact Hd].
  rewrite (fan_packet_bytes d (proj2 (is_byte_iff d) Hd)) in H.
  inversion H. reflexivity.
Qed.

Lemma pump_packet_eq (v : PumpVoltage) : pump_packet v = Return (pump_frame v).
Proof. destruct v; reflexivity. Qed.

Lemma rgb_packet_inv (m : RGBMode) (color : Z * Z * Z) (p : packet) :
  rgb_packet m color = Return p ->
  p = rgb_frame m color
  /\ (0 <= fst (fst color) <= 255)%Z
  /\ (0 <= snd (fst color) <= 255)%Z
  /\ (0 <= snd color <= 255)%Z.
Proof.
  destruct color as [[r g] b]. unfold rgb_packet. intros H.
  apply bytearray_inv in H. destruct H as [-> HF].
  split; [reflexivity|]. simpl.
  repeat (match goal with H : Forall _ (_ :: _) |- _ => inversion H; clear H; subst end).
  auto.
Qed.

(** X1.  The RGB packet: when the three colour components are bytes it
    is the 8-byte frame 0xFE, 0x1E, 0x01, red, green, blue, mode code,
    0xEF; when one of them is not, building the packet raises
    ValueError. *)
Theorem rgb_packet_cases (m : RGBMode) (r g b : Z) :
  rgb_packet m (r, g, b)
  = if is_byte r && is_byte g && is_byte b
    then Return [0xFE; 0x1E; 0x01; r; g; b; RGBMode_int m; 0xEF]%Z
    else Raise ValueError.
Proof.
  unfold rgb_packet, bytearray, Commands.RGB.
  assert (Hm : is_byte (RGBMode_int m) = true) by (destruct m; reflexivity).
  simpl. rewrite Hm.
  destruct (is_byte r), (is_byte g), (is_byte b); reflexivity.
Qed.

(** X2.  Two commands that encode to the same packet are the same
    command: the command byte tells fan, pump and RGB apart, the four
    voltage codes and the three mode codes are distinct, and duty and
    colour are carried as they are. *)
Theorem encode_injective (c1 c2 : command) (p : packet) :
  encode c1 = Return p -> encode c2 = Return p -> c1 = c2.
Proof.
  intros H1 H2.
  destruct c1 as [d1|v1|m1 col1], c2 as [d2|v2|m2 col2]; simpl in H1, H2.
  - apply fan_packet_inv in H1, H2. destruct H1 as [-> _], H2 as [E _].
    unfold fan_frame in E. inversion E. reflexivity.
  - apply fan_packet_inv in H1. destruct H1 as [-> _].
    rewrite pump_packet_eq in H2. inversion H2.
  - apply fan_packet_inv in H1. destruct H1 as [-> _].
    apply rgb_packet_inv in H2. destruct H2 as [E _].
    destruct col2 as [[r g] b]. inversion E.
  - apply fan_packet_inv in H2. destruct H2 as [-> _].
    rewrite pump_packet_eq in H1. inversion H1.
  - rewrite pump_packet_eq in H1, H2. rewrite <- H1 in H2.
    destruct v1, v2; try reflexivity; inversion H2.
  - rewrite pump_packet_eq in H1. inversion H1; subst.
    apply rgb_packet_inv in H2. destruct H2 as [E _].
    destruct col2 as [[r g] b]. inversion E.
  - apply fan_packet_inv in H2. destruct H2 as [-> _].
    apply rgb_packet_inv in H1. destruct H1 as [E _].
    destruct col1 as [[r g] b]. inversion E.
  - rewrite pump_packet_eq in H2. inversion H2; subst.
    apply rgb_packet_inv in H1. destruct H1 as [E _].
    destruct col1 as [[r g] b]. inversion E.
  - apply rgb_packet_inv in H1, H2.
    destruct H1 as [-> _], H2 as [E _].
    destruct col1 as [[r1 g1] b1], col2 as [[r2 g2] b2].
    unfold rgb_frame in E. inversion E; subst.
    destruct m1, m2; try reflexivity; discriminate.
Qed.

Lemma encode_injective_pump :
  encode (Pump V8) = Return [0xFE; 0x1C; 0x01; 100; 0x03; 0; 0; 0xEF]%Z
  /\ Pump V8 = Pump V8.
Proof.
  split; [reflexivity|].
  apply (encode_injective (Pump V8) (Pump V8)
           [0xFE; 0x1C; 0x01; 100; 0x03; 0; 0; 0xEF]%Z); reflexivity.
Defined.

Lemma bytearray_is_frame (l p : list Z) :
  bytearray l = Return p ->
  length l = 8%nat -> nth 0 l 0%Z = 0xFE%Z -> nth 7 l 0%Z = 0xEF%Z ->
  is_frame p.
Proof.
  intros H Hlen H0 H7. apply bytearray_inv in H. destruct H as [-> HF].
  unfold is_frame. auto.
Qed.

Lemma fan_packet_is_frame (d : Z) (p : packet) :
  fan_packet d = Return p -> is_frame p.
Proof.
  intros H. apply (bytearray_is_frame _ p H); reflexivity.
Qed.

Lemma pump_packet_is_frame (v : PumpVoltage) (p : packet) :
  pump_packet v = Return p -> is_frame p.
Proof.
  intros H. apply (bytearray_is_frame _ p H); reflexivity.
Qed.

Lemma rgb_packet_is_frame (m : RGBMode) (col : Z * Z * Z) (p : packet) :
  rgb_packet m col = Return p -> is_frame p.
Proof.
  destruct col as [[r g] b]. intros H.
  apply (bytearray_is_frame _ p H); reflexivity.
Qed.

(** X3.  Every packet the codec produces is a frame of the protocol:
    8 bytes, each in [[0,255]], the first 0xFE and the last 0xEF. *)
Theorem encode_is_frame (c : command) (p : packet) :
  encode c = Return p -> is_frame p.
Proof.
  destruct c as [d|v|m col]; simpl; intros H.
  - eapply fan_packet_is_frame. exact H.
  - eapply pump_packet_is_frame. exact H.
  - eapply rgb_packet_is_frame. exact H.
Qed.

Lemma encode_is_frame_fan : is_frame (fan_frame 150).
Proof.
  apply (encode_is_frame (Fan 150)). reflexivity.
Defined.

(** ** The fan curve: order of the points, control points, range, errors *)

Lemma sorted_permutation (l l' : list point) :
  Permutation l l' -> sorted l = sorted l'.
Proof.
  intros Hp. symmetry. apply sorted_unique.
  - eapply perm_trans; [exact Hp|apply sorted_perm].
  - apply sorted_Sorted.
Qed.

(** X4.  The value of the curve does not depend on the order in which
    the points are stored: two lists with the same points give the same
    result (value or exception) at every temperature. *)
Theorem interpolate_permutation (l l' : list point) (temp : Q) :
  Permutation l l' -> interpolate l temp = interpolate l' temp.
Proof.
  intros Hp. unfold interpolate. rewrite (sorted_permutation l l' Hp).
  reflexivity.
Qed.

Lemma interpolate_permutation_default :
  interpolate [(100, 100); (20, 31); (60, 58)]%Z 45
  = interpolate default_curve 45.
Proof.
  apply (interpolate_permutation [(100, 100); (20, 31); (60, 58)]%Z
           default_curve 45).
  apply (Permutation_cons_append [(20, 31); (60, 58)]%Z (100, 100)%Z).
Defined.

(** In a list of two or more points every point is an end of a segment. *)
Lemma point_in_segment (l : list point) (q : point) :
  (2 <= length l)%nat -> In q l ->
  (exists y, In (q, y) (segments l)) \/ (exists x, In (x, q) (segments l)).
Proof.
  induction l as [|a l IH]; simpl; [lia|].
  destruct l as [|b m]; simpl; [lia|]. intros _ Hin.
  destruct Hin as [<-|Hin].
  - left. exists b. left. reflexivity.
  - destruct m as [|c m'].
    + destruct Hin as [<-|[]]. right. exists a. left. reflexivity.
    + destruct (IH ltac:(simpl; lia) Hin) as [[y Hy]|[x Hx]].
      * left. exists y. right. exact Hy.
      * right. exists x. right. exact Hx.
Qed.

(** The value on a segment, for curves with distinct temperatures. *)
Lemma interpolate_linear_on_segment_aux
  (l : list point) (temp : Q) (t0 p0 t1 p1 : Z) :
  NoDup (map fst l) ->
  In ((t0, p0), (t1, p1)) (segments (sorted l)) ->
  inject_Z t0 <= temp -> temp <= inject_Z t1 ->
  exists v,
    interpolate l temp = Return v /\
    v == inject_Z p0
         + inject_Z (p1 - p0) * (temp - inject_Z t0) / inject_Z (t1 - t0).
Proof.
  intros Hnd Hin H0 H1.
  pose proof (sorted_strict _ Hnd) as Hss.
  assert (Hbr : brackets temp ((t0, p0), (t1, p1)) = true)
    by (apply brackets_iff; simpl; split; assumption).
  destruct (first_bracket_value _ temp _ _ Hss Hin Hbr)
    as (s & v & v' & Hfind & Hs & Hxy & Heq).
  exists v. split.
  - unfold interpolate. rewrite Hfind. exact Hs.
  - rewrite Heq.
    pose proof (strict_segment_lt _ _ _ Hss Hin) as Hlt.
    unfold temp_lt in Hlt. simpl in Hlt, Hxy.
    destruct (Z.eqb_spec (t1 - t0) 0) as [?|_]; [lia|].
    inversion Hxy. reflexivity.
Qed.

(** X5.  A curve whose temperatures are pairwise distinct passes through
    its control points: at the temperature of a point, [interpolate]
    returns that point's duty. *)
Theorem interpolate_at_control_point (l : list point) (t p : Z) :
  NoDup (map fst l) -> In (t, p) l ->
  exists v, interpolate l (inject_Z t) = Return v /\ v == inject_Z p.
Proof.
  intros Hnd Hin.
  pose proof (sorted_strict _ Hnd) as Hss.
  assert (Hin' : In (t, p) (sorted l))
    by (eapply Permutation_in; [apply sorted_perm|exact Hin]).
  destruct (le_lt_dec 2 (length (sorted l))) as [Hlen|Hlen].
  - destruct (point_in_segment _ _ Hlen Hin') as [[[t1 p1] Hy]|[[t0 p0] Hx]].
    + destruct (interpolate_linear_on_segment_aux l (inject_Z t) t p t1 p1)
        as [v [Hv Hq]]; try assumption.
      * apply Qle_refl.
      * pose proof (strict_segment_lt _ _ _ Hss Hy) as Hlt.
        unfold temp_lt in Hlt. simpl in Hlt. rewrite <- Zle_Qle. lia.
      * exists v. split; [exact Hv|]. rewrite Hq.
        apply line_at_left_end; [|reflexivity].
        apply (strict_segment_lt _ _ _ Hss Hy).
    + destruct (interpolate_linear_on_segment_aux l (inject_Z t) t0 p0 t p)
        as [v [Hv Hq]]; try assumption.
      * pose proof (strict_segment_lt _ _ _ Hss Hx) as Hlt.
        unfold temp_lt in Hlt. simpl in Hlt. rewrite <- Zle_Qle. lia.
      * apply Qle_refl.
      * exists v. split; [exact Hv|]. rewrite Hq.
        apply line_at_right_end; [|reflexivity].
        apply (strict_segment_lt _ _ _ Hss Hx).
  - (* a single point *)
    destruct (sorted l) as [|a [|b m]] eqn:E; simpl in Hlen; try lia.
    + destruct Hin'.
    + destruct Hin' as [->|[]].
      exists (inject_Z p). split; [|reflexivity].
      unfold interpolate. rewrite E. reflexivity.
Qed.

Lemma interpolate_at_control_point_default :
  exists v, interpolate default_curve (inject_Z 60) = Return v
            /\ v == inject_Z 58.
Proof.
  apply (interpolate_at_control_point default_curve 60 58).
  - simpl. repeat constructor; simpl; intuition discriminate.
  - simpl. right. left. reflexivity.
Defined.

Lemma sorted_segment_le (l : list point) (x y : point) :
  Sorted tuple_le l -> In (x, y) (segments l) -> tuple_le x y.
Proof.
  induction 1 as [|a m Hs IH Hhd]; intros Hin.
  - destruct Hin.
  - destruct m as [|b m']; [destruct Hin|].
    rewrite segments_cons2 in Hin. destruct Hin as [E|Hin].
    + inversion E; subst. inversion Hhd; assumption.
    + apply IH. exact Hin.
Qed.

Lemma segment_value_inv (temp : Q) (t0 p0 t1 p1 : Z) (r : result Q) :
  segment_value temp ((t0, p0), (t1, p1)) = r ->
  (t1 = t0 /\ r = Raise ZeroDivisionError)
  \/ (t1 <> t0 /\
      r = Return (inject_Z p0
                  + inject_Z (p1 - p0) * (temp - inject_Z t0)
                    / inject_Z (t1 - t0))).
Proof.
  simpl. destruct (Z.eqb_spec (t1 - t0) 0) as [E|E]; intros <-.
  - left. split; [lia|reflexivity].
  - right. split; [lia|reflexivity].
Qed.

(** A returned value is between bounds of the duties. *)
Lemma interpolate_bounds
  (l : list point) (temp : Q) (lo hi : Z) (v : Q) :
  Forall (fun p => (lo <= snd p <= hi)%Z) l ->
  interpolate l temp = Return v ->
  inject_Z lo <= v /\ v <= inject_Z hi.
Proof.
  intros Hall Hv. rewrite Forall_forall in Hall. unfold interpolate in Hv.
  destruct (find (brackets temp) (segments (sorted l)))
    as [[[t0 p0] [t1 p1]]|] eqn:E.
  - apply find_some in E. destruct E as [Hin Hbr].
    pose proof (sorted_segment_le _ _ _ (sorted_Sorted l) Hin) as Hle.
    apply tuple_le_fst in Hle. simpl in Hle.
    apply brackets_iff in Hbr. simpl in Hbr. destruct Hbr as [H0 H1].
    destruct (segment_points_in _ _ _ Hin) as [Hx Hy].
    pose proof (Hall _ (sorted_in _ _ Hx)) as B0.
    pose proof (Hall _ (sorted_in _ _ Hy)) as B1.
    simpl in B0, B1.
    apply segment_value_inv in Hv. destruct Hv as [[_ Hv]|[Hne Hv]];
      [discriminate|].
    inversion Hv; subst v. rewrite !inject_Z_minus.
    apply line_bounds; try assumption; try (rewrite <- Zle_Qle; lia).
    rewrite <- Zlt_Qlt. lia.
  - destruct (sorted l) as [|a m] eqn:Es; [discriminate|].
    assert (Ev : v = inject_Z (snd (last (a :: m) (0, 0)%Z)))
      by (unfold last_pct in Hv; congruence).
    rewrite Ev. clear Hv Ev.
    assert (Hlast : In (last (a :: m) (0, 0)%Z) (sorted l)).
    { rewrite Es. apply last_in. discriminate. }
    pose proof (Hall _ (sorted_in _ _ Hlast)) as B.
    split; rewrite <- Zle_Qle; lia.
Qed.

(** X6.  Whenever [interpolate] returns, the value lies between the
    smallest and the largest duty of the curve, and so does its integer
    part, which is what gets sent: there is no extrapolation, on any
    curve and at any temperature. *)
Theorem interpolate_within_duties
  (l : list point) (temp : Q) (lo hi : Z) (v : Q) :
  Forall (fun p => (lo <= snd p <= hi)%Z) l ->
  interpolate l temp = Return v ->
  inject_Z lo <= v /\ v <= inject_Z hi /\ (lo <= py_int v <= hi)%Z.
Proof.
  intros Hall Hv.
  destruct (interpolate_bounds l temp lo hi v Hall Hv) as [H0 H1].
  split; [exact H0|]. split; [exact H1|].
  unfold py_int. destruct (Qle_bool 0 v).
  - split.
    + rewrite <- (Qfloor_Z lo). apply Qfloor_resp_le. exact H0.
    + rewrite <- (Qfloor_Z hi). apply Qfloor_resp_le. exact H1.
  - split.
    + rewrite <- (Qceiling_Z lo). apply Qceiling_resp_le. exact H0.
    + rewrite <- (Qceiling_Z hi). apply Qceiling_resp_le. exact H1.
Qed.

Lemma interpolate_within_duties_default :
  inject_Z 31 <= 1915 # 40 /\ 1915 # 40 <= inject_Z 100
  /\ (31 <= py_int (1915 # 40) <= 100)%Z.
Proof.
  apply (interpolate_within_duties default_curve 45 31 100 (1915 # 40)).
  - repeat constructor; simpl; lia.
  - reflexivity.
Defined.

(** In an ascending list, a first bracketing segment whose two points
    share a temperature is the very first segment. *)
Lemma degenerate_is_first (l : list point) (temp : Q) (x y : point) :
  Sorted tuple_le l ->
  find (brackets temp) (segments l) = Some (x, y) ->
  fst x = fst y ->
  exists rest, l = x :: y :: rest.
Proof.
  induction 1 as [|a m Hs IH Hhd]; intros Hfind Heq.
  - discriminate.
  - destruct m as [|b m']; [discriminate|].
    rewrite segments_cons2 in Hfind. simpl in Hfind.
    destruct (brackets temp (a, b)) eqn:Eab.
    + inversion Hfind; subst. exists m'. reflexivity.
    + exfalso.
      destruct (IH Hfind Heq) as [rest E]. injection E as Ex Em. subst x m'.
      apply find_some in Hfind. destruct Hfind as [_ Hbr].
      apply brackets_iff in Hbr. destruct Hbr as [H0 H1].
      assert (Hab : tuple_le a b) by (inversion Hhd; assumption).
      apply tuple_le_fst in Hab.
      assert (brackets temp (a, b) = true); [|congruence].
      apply brackets_iff. split.
      * eapply Qle_trans; [|exact H0]. rewrite <- Zle_Qle. exact Hab.
      * rewrite Heq. exact H1.
Qed.

Lemma interpolate_degenerate_start
  (l : list point) (temp : Q) (a b : point) (rest : list point) :
  sorted l = a :: b :: rest -> fst a = fst b -> temp == inject_Z (fst a) ->
  interpolate l temp = Raise ZeroDivisionError.
Proof.
  intros Hl Heq Ht.
  unfold interpolate. rewrite Hl, segments_cons2. simpl find.
  assert (Hbr : brackets temp (a, b) = true).
  { apply brackets_iff. rewrite <- Heq, Ht. split; apply Qle_refl. }
  rewrite Hbr. destruct a as [ta pa], b as [tb pb]. simpl in *.
  subst tb. rewrite Z.sub_diag. reflexivity.
Qed.

(** X7.  [interpolate] fails in exactly two ways: with IndexError on the
    empty curve, and with ZeroDivisionError when the two lowest points of
    the curve have the same temperature and the query is that
    temperature.  On every other input it returns a value. *)
Theorem interpolate_raises (l : list point) (temp : Q) (e : PyExc) :
  interpolate l temp = Raise e <->
  (e = IndexError /\ l = [])
  \/ (e = ZeroDivisionError
      /\ exists a b rest,
           sorted l = a :: b :: rest
           /\ fst a = fst b /\ temp == inject_Z (fst a)).
Proof.
  split.
  - unfold interpolate. intros H.
    destruct (find (brackets temp) (segments (sorted l)))
      as [[[t0 p0] [t1 p1]]|] eqn:E.
    + right. apply segment_value_inv in H.
      destruct H as [[Ht H]|[_ H]]; [|discriminate].
      inversion H; subst e. split; [reflexivity|].
      destruct (degenerate_is_first _ temp _ _ (sorted_Sorted l) E)
        as [rest Hl]; [simpl; congruence|].
      exists (t0, p0), (t1, p1), rest. simpl.
      split; [exact Hl|]. split; [congruence|].
      apply find_some in E. destruct E as [_ Hbr].
      apply brackets_iff in Hbr. simpl in Hbr. destruct Hbr as [H0 H1].
      apply Qle_antisym; [|exact H0]. rewrite <- Ht. exact H1.
    + left. destruct (sorted l) as [|a m] eqn:Es; [|discriminate].
      simpl in H. inversion H. split; [reflexivity|].
      destruct l as [|p l']; [reflexivity|].
      exfalso. apply (sorted_nonempty (p :: l')); [discriminate|exact Es].
  - intros [[-> ->]|[-> (a & b & rest & Hl & Heq & Ht)]].
    + reflexivity.
    + eapply interpolate_degenerate_start; eassumption.
Qed.

(** ** The curve editor *)

Lemma setitem_Return {A} (l : list A) (i : nat) (v : A) (l' : list A) :
  setitem l i v = Return l' ->
  (i < length l)%nat
  /\ length l' = length l
  /\ nth_error l' i = Some v
  /\ (forall j, j <> i -> nth_error l' j = nth_error l j).
Proof.
  revert i l'. induction l as [|a l IH]; intros i l' H; simpl in H.
  - discriminate.
  - destruct i as [|i].
    + inversion H; subst. simpl. repeat split; try lia.
      intros [|j] Hj; [congruence|reflexivity].
    + destruct (setitem l i v) as [l''|e] eqn:E; [|discriminate].
      inversion H; subst. destruct (IH _ _ E) as (H1 & H2 & H3 & H4).
      simpl. repeat split; try lia; try assumption.
      intros [|j] Hj; [reflexivity|]. simpl. apply H4. congruence.
Qed.

Lemma setitem_Raise {A} (l : list A) (i : nat) (v : A) (e : PyExc) :
  setitem l i v = Raise e -> e = IndexError /\ (length l <= i)%nat.
Proof.
  revert i. induction l as [|a l IH]; intros i H; simpl in H.
  - inversion H. simpl. split; [reflexivity|lia].
  - destruct i as [|i]; [discriminate|].
    destruct (setitem l i v) as [l''|e'] eqn:E; [discriminate|].
    inversion H; subst. destruct (IH _ E) as [H1 H2].
    simpl. split; [exact H1|lia].
Qed.

Lemma setitem_in_range {A} (l : list A) (i : nat) (v : A) :
  (i < length l)%nat -> exists l', setitem l i v = Return l'.
Proof.
  intros Hi. destruct (setitem l i v) as [l'|e] eqn:E.
  - exists l'. reflexivity.
  - apply setitem_Raise in E. lia.
Qed.

Lemma setitem_Forall {A} (P : A -> Prop) (l : list A) (i : nat) (v : A)
  (l' : list A) :
  setitem l i v = Return l' -> Forall P l -> P v -> Forall P l'.
Proof.
  revert i l'. induction l as [|a l IH]; intros i l' H HF Hv; simpl in H.
  - discriminate.
  - inversion HF; subst. destruct i as [|i].
    + inversion H; subst. constructor; assumption.
    + destruct (setitem l i v) as [l''|e] eqn:E; [|discriminate].
      inversion H; subst. constructor; [assumption|].
      eapply IH; eassumption.
Qed.

Lemma first_near_bound (w h x y : Z) (k : nat) (pts : list point) (i : nat) :
  first_near w h x y k pts = Some i -> (k <= i < k + length pts)%nat.
Proof.
  revert k. induction pts as [|pt pts IH]; intros k H; simpl in H.
  - discriminate.
  - destruct (near_mark w h x y pt).
    + inversion H; subst. simpl. lia.
    + apply IH in H. simpl. lia.
Qed.

Lemma py_clamp_bounds (t lo hi : Q) :
  lo <= hi -> lo <= py_min (py_max t lo) hi /\ py_min (py_max t lo) hi <= hi.
Proof.
  intros Hlh. unfold py_min, py_max.
  destruct (Qle_bool lo t) eqn:E1.
  - apply Qle_bool_iff in E1.
    destruct (Qle_bool t hi) eqn:E2.
    + apply Qle_bool_iff in E2. split; assumption.
    + split; [exact Hlh|apply Qle_refl].
  - destruct (Qle_bool lo hi) eqn:E2.
    + split; [apply Qle_refl|exact Hlh].
    + split; [exact Hlh|apply Qle_refl].
Qed.

Lemma py_int_between (v : Q) (lo hi : Z) :
  inject_Z lo <= v -> v <= inject_Z hi -> (lo <= py_int v <= hi)%Z.
Proof.
  intros H0 H1. unfold py_int. destruct (Qle_bool 0 v).
  - split.
    + rewrite <- (Qfloor_Z lo). apply Qfloor_resp_le. exact H0.
    + rewrite <- (Qfloor_Z hi). apply Qfloor_resp_le. exact H1.
  - split.
    + rewrite <- (Qceiling_Z lo). apply Qceiling_resp_le. exact H0.
    + rewrite <- (Qceiling_Z hi). apply Qceiling_resp_le. exact H1.
Qed.

Lemma clamped_point_in_box (t p : Q) :
  in_box (py_int (py_min (py_max t 20) 100), py_int (py_min (py_max p 0) 100)).
Proof.
  unfold in_box. simpl. split.
  - destruct (py_clamp_bounds t 20 100) as [H0 H1]; [discriminate|].
    apply py_int_between; assumption.
  - destruct (py_clamp_bounds p 0 100) as [H0 H1]; [discriminate|].
    apply py_int_between; assumption.
Qed.

(** What a move that returns has done. *)
Lemma mouseMoveEvent_Return (w h x y : Z) (fw fw' : FanCurveWidget) :
  mouseMoveEvent w h x y fw = Return fw' ->
  (selected fw = None /\ fw' = fw)
  \/ (exists i pt,
        selected fw = Some i /\ selected fw' = Some i
        /\ in_box pt
        /\ setitem (points fw) i pt = Return (points fw')).
Proof.
  unfold mouseMoveEvent. destruct (selected fw) as [i|] eqn:Es.
  - intros H. right.
    destruct (w - 50 =? 0)%Z; [discriminate|].
    destruct (h - 50 =? 0)%Z; [discriminate|].
    match type of H with
    | match setitem _ _ ?pt with _ => _ end = _ =>
        destruct (setitem (points fw) i pt) as [pts|e] eqn:E;
          [|discriminate];
        exists i, pt
    end.
    inversion H; subst. simpl.
    split; [reflexivity|]. split; [reflexivity|].
    split; [apply clamped_point_in_box|exact E].
  - intros H. left. inversion H. split; reflexivity.
Qed.

(** X8.  A drag stores a point inside the rectangle of temperatures
    20..100 and duties 0..100, wherever the mouse is and whatever the
    widget's size; it replaces the selected point and no other, and the
    number of points stays the same. *)
Theorem mouseMoveEvent_stores_in_box
  (w h x y : Z) (fw fw' : FanCurveWidget) (i : nat) :
  selected fw = Some i ->
  mouseMoveEvent w h x y fw = Return fw' ->
  length (points fw') = length (points fw)
  /\ selected fw' = Some i
  /\ (exists pt, nth_error (points fw') i = Some pt /\ in_box pt)
  /\ (forall j, j <> i ->
        nth_error (points fw') j = nth_error (points fw) j).
Proof.
  intros Hs H. apply mouseMoveEvent_Return in H.
  destruct H as [[Hn _]|(i' & pt & Hi & Hi' & Hbox & Hset)]; [congruence|].
  assert (i' = i) by congruence. subst i'.
  apply setitem_Return in Hset. destruct Hset as (_ & Hlen & Hnth & Hrest).
  split; [exact Hlen|]. split; [exact Hi'|].
  split; [exists pt; split; assumption|exact Hrest].
Qed.

Lemma mouseMoveEvent_stores_in_box_default :
  let fw := mkWidget default_curve (Some 1%nat) in
  let fw' := mkWidget [(20, 31); (100, 0); (100, 100)]%Z (Some 1%nat) in
  length (points fw') = length (points fw)
  /\ selected fw' = Some 1%nat
  /\ (exists pt, nth_error (points fw') 1 = Some pt /\ in_box pt)
  /\ (forall j, j <> 1%nat ->
        nth_error (points fw') j = nth_error (points fw) j).
Proof.
  apply (mouseMoveEvent_stores_in_box 700 200 5000 5000
           (mkWidget default_curve (Some 1%nat))
           (mkWidget [(20, 31); (100, 0); (100, 100)]%Z (Some 1%nat))
           1%nat); reflexivity.
Defined.

(** X9.  A drag fails in exactly two ways, and only while a point is
    selected: with ZeroDivisionError when the widget is 50 pixels wide or
    50 pixels high, and otherwise with IndexError when the selected index
    is not an index of the list. *)
Theorem mouseMoveEvent_raises
  (w h x y : Z) (fw : FanCurveWidget) (e : PyExc) :
  mouseMoveEvent w h x y fw = Raise e <->
  exists i,
    selected fw = Some i
    /\ ((e = ZeroDivisionError /\ (w = 50 \/ h = 50)%Z)
        \/ (e = IndexError /\ w <> 50%Z /\ h <> 50%Z
            /\ (length (points fw) <= i)%nat)).
Proof.
  unfold mouseMoveEvent. destruct (selected fw) as [i|].
  - destruct (Z.eqb_spec (w - 50) 0) as [Hw|Hw].
    { split.
      - intros H. inversion H. exists i. split; [reflexivity|].
        left. split; [reflexivity|lia].
      - intros (i' & _ & [[-> _]|[_ [Hw' _]]]); [reflexivity|lia]. }
    destruct (Z.eqb_spec (h - 50) 0) as [Hh|Hh].
    { split.
      - intros H. inversion H. exists i. split; [reflexivity|].
        left. split; [reflexivity|lia].
      - intros (i' & _ & [[-> _]|[_ [_ [Hh' _]]]]); [reflexivity|lia]. }
    match goal with
    | |- match setitem _ _ ?pt with _ => _ end = _ <-> _ =>
        destruct (setitem (points fw) i pt) as [pts|e'] eqn:E
    end.
    + apply setitem_Return in E. destruct E as [Hi _].
      split; [discriminate|].
      intros (i' & Hi' & [[_ [?|?]]|(_ & _ & _ & Hlen)]); try lia.
      inversion Hi'; subst. lia.
    + apply setitem_Raise in E. destruct E as [-> Hlen].
      split.
      * intros H. inversion H. exists i. split; [reflexivity|].
        right. repeat split; try assumption; lia.
      * intros (i' & _ & [[_ [?|?]]|(-> & _)]); try lia. reflexivity.
  - split; [discriminate|]. intros (i & Hi & _). discriminate.
Qed.

Lemma mouseMoveEvent_Raise (w h x y : Z) (fw : FanCurveWidget) (e : PyExc) :
  mouseMoveEvent w h x y fw = Raise e ->
  e = ZeroDivisionError
  \/ (e = IndexError
      /\ exists i, selected fw = Some i /\ (length (points fw) <= i)%nat).
Proof.
  unfold mouseMoveEvent. destruct (selected fw) as [i|]; [|discriminate].
  destruct (w - 50 =? 0)%Z; [intros H; inversion H; left; reflexivity|].
  destruct (h - 50 =? 0)%Z; [intros H; inversion H; left; reflexivity|].
  match goal with
  | |- match setitem _ _ ?pt with _ => _ end = _ -> _ =>
      destruct (setitem (points fw) i pt) as [pts|e'] eqn:E
  end; [discriminate|].
  intros H. inversion H; subst e'. apply setitem_Raise in E.
  destruct E as [-> Hlen]. right. split; [reflexivity|].
  exists i. split; [reflexivity|exact Hlen].
Qed.

Lemma mousePressEvent_keeps (w h x y : Z) (fw : FanCurveWidget) :
  selection_valid fw ->
  points (mousePressEvent w h x y fw) = points fw
  /\ selection_valid (mousePressEvent w h x y fw).
Proof.
  intros Hv. unfold mousePressEvent.
  destruct (first_near w h x y 0 (points fw)) as [i|] eqn:E.
  - split; [reflexivity|]. unfold selection_valid. simpl.
    apply first_near_bound in E. lia.
  - split; [reflexivity|exact Hv].
Qed.

Lemma handle_keeps (ev : MouseEvent) (fw : FanCurveWidget) :
  selection_valid fw -> Forall in_box (points fw) ->
  match handle ev fw with
  | Return fw' =>
      selection_valid fw' /\ Forall in_box (points fw')
      /\ length (points fw') = length (points fw)
  | Raise e => e = ZeroDivisionError
  end.
Proof.
  intros Hv Hbox. destruct ev as [w h x y|w h x y|]; simpl.
  - destruct (mousePressEvent_keeps w h x y fw Hv) as [Hp Hv'].
    rewrite Hp. auto.
  - destruct (mouseMoveEvent w h x y fw) as [fw'|e] eqn:E.
    + apply mouseMoveEvent_Return in E.
      destruct E as [[_ ->]|(i & pt & Hi & Hi' & Hpt & Hset)]; [auto|].
      pose proof (setitem_Forall _ _ _ _ _ Hset Hbox Hpt) as Hbox'.
      apply setitem_Return in Hset. destruct Hset as (Hlt & Hlen & _).
      split; [|split; assumption].
      unfold selection_valid. rewrite Hi', Hlen. exact Hlt.
    + apply mouseMoveEvent_Raise in E.
      destruct E as [->|(_ & i & Hi & Hlen)]; [reflexivity|].
      unfold selection_valid in Hv. rewrite Hi in Hv. lia.
  - unfold selection_valid. simpl. auto.
Qed.

(** X10.  Whatever the user does with the mouse, starting from a widget
    whose points are inside the rectangle and whose selection, if any,
    names a point: the points stay inside the rectangle of temperatures
    20..100 and duties 0..100, their number never changes, the selection
    stays valid, and the only exception a handler can raise is the
    ZeroDivisionError of a widget 50 pixels wide or high (never
    IndexError). *)
Theorem editor_invariant (evs : list MouseEvent) (fw : FanCurveWidget) :
  selection_valid fw -> Forall in_box (points fw) ->
  match handle_all evs fw with
  | Return fw' =>
      selection_valid fw' /\ Forall in_box (points fw')
      /\ length (points fw') = length (points fw)
  | Raise e => e = ZeroDivisionError
  end.
Proof.
  revert fw. induction evs as [|ev evs IH]; intros fw Hv Hbox; simpl.
  - auto.
  - pose proof (handle_keeps ev fw Hv Hbox) as H.
    destruct (handle ev fw) as [fw1|e]; [|exact H].
    destruct H as (Hv1 & Hbox1 & Hlen1).
    specialize (IH fw1 Hv1 Hbox1).
    destruct (handle_all evs fw1) as [fw'|e]; [|exact IH].
    destruct IH as (Hv' & Hbox' & Hlen').
    split; [exact Hv'|]. split; [exact Hbox'|]. congruence.
Qed.

Lemma editor_invariant_default :
  let fw' := mkWidget [(20, 31); (20, 100); (100, 100)]%Z None in
  selection_valid fw' /\ Forall in_box (points fw')
  /\ length (points fw') = length default_curve.
Proof.
  apply (editor_invariant
           [Press 700 200 365 78; Move 700 200 (-30) (-30); Release]
           (mkWidget default_curve None)).
  - exact I.
  - repeat constructor; simpl; lia.
Defined.

Lemma py_int_comp (x y : Q) : x == y -> py_int x = py_int y.
Proof.
  intros E. unfold py_int. rewrite (Qleb_comp 0 0 (Qeq_refl 0) x y E).
  destruct (Qle_bool 0 y); [apply Qfloor_comp|apply Qceiling_comp]; exact E.
Qed.

Lemma py_int_Z (z : Z) : py_int (inject_Z z) = z.
Proof.
  unfold py_int. destruct (Qle_bool 0 (inject_Z z));
    [apply Qfloor_Z|apply Qceiling_Z].
Qed.

Lemma py_clamp_int (t : Q) (z lo hi : Z) :
  t == inject_Z z -> (lo <= z <= hi)%Z ->
  py_int (py_min (py_max t (inject_Z lo)) (inject_Z hi)) = z.
Proof.
  intros E Hz. unfold py_min, py_max.
  assert (H1 : Qle_bool (inject_Z lo) t = true).
  { apply Qle_bool_iff. rewrite E, <- Zle_Qle. lia. }
  rewrite H1.
  assert (H2 : Qle_bool t (inject_Z hi) = true).
  { apply Qle_bool_iff. rewrite E, <- Zle_Qle. lia. }
  rewrite H2. rewrite (py_int_comp _ _ E). apply py_int_Z.
Qed.

(** X11.  The edges of the plot are the limits of the curve: in a widget
    more than 50 pixels wide and high, a drag to or past the left edge
    stores temperature 20, to or past the right edge 100, to or above the
    top duty 100, to or below the bottom duty 0. *)
Theorem mouseMoveEvent_edges
  (w h x y : Z) (fw : FanCurveWidget) (i : nat) :
  (50 < w)%Z -> (50 < h)%Z ->
  selected fw = Some i -> (i < length (points fw))%nat ->
  exists t p,
    mouseMoveEvent w h x y fw
    = Return (mkWidget
                (firstn i (points fw) ++ (t, p) :: skipn (S i) (points fw))
                (Some i))
    /\ ((x <= 40)%Z -> t = 20%Z)
    /\ ((w - 10 <= x)%Z -> t = 100%Z)
    /\ ((y <= 10)%Z -> p = 100%Z)
    /\ ((h - 40 <= y)%Z -> p = 0%Z).
Proof.
  intros Hw Hh Hs Hi. unfold mouseMoveEvent. rewrite Hs.
  destruct (Z.eqb_spec (w - 50) 0) as [?|_]; [lia|].
  destruct (Z.eqb_spec (h - 50) 0) as [?|_]; [lia|].
  match goal with
  | |- context [setitem _ _ (?a, ?b)] => exists a, b
  end.
  split.
  - match goal with
    | |- context [setitem ?l ?k ?pt] =>
        assert (E : setitem l k pt
                    = Return (firstn k l ++ pt :: skipn (S k) l))
    end.
    { clear Hs. revert i Hi. induction (points fw) as [|a l IH];
        intros i Hi; simpl in Hi; [lia|].
      destruct i as [|i]; [reflexivity|]. simpl.
      rewrite IH by lia. reflexivity. }
    rewrite E. reflexivity.
  - assert (Hnw : ~ inject_Z (w - 50) == 0).
    { change 0 with (inject_Z 0). intros E.
      apply (proj1 (inject_Z_injective _ _)) in E. lia. }
    assert (Hnh : ~ inject_Z (h - 50) == 0).
    { change 0 with (inject_Z 0). intros E.
      apply (proj1 (inject_Z_injective _ _)) in E. lia. }
    repeat split; intros Hedge.
    + apply (py_clamp_int _ 20 20 100); [|lia].
      replace (Z.min (Z.max x 40) (w - 10) - 40)%Z with 0%Z by lia.
      change (inject_Z 0) with 0. change (inject_Z 20) with 20.
      field. exact Hnw.
    + apply (py_clamp_int _ 100 20 100); [|lia].
      replace (Z.min (Z.max x 40) (w - 10) - 40)%Z with (w - 50)%Z by lia.
      change (inject_Z (100 - 20)) with 80. change (inject_Z 100) with 100.
      field. exact Hnw.
    + apply (py_clamp_int _ 100 0 100); [|lia].
      replace (h - 40 - Z.min (Z.max y 10) (h - 40))%Z with (h - 50)%Z by lia.
      change (inject_Z 100) with 100.
      field. exact Hnh.
    + apply (py_clamp_int _ 0 0 100); [|lia].
      replace (h - 40 - Z.min (Z.max y 10) (h - 40))%Z with 0%Z by lia.
      change (inject_Z 0) with 0.
      field. exact Hnh.
Qed.

Lemma mouseMoveEvent_edges_default :
  exists t p,
    mouseMoveEvent 700 200 (-30) (-30) (mkWidget default_curve (Some 1%nat))
    = Return (mkWidget [(20, 31); (t, p); (100, 100)]%Z (Some 1%nat))
    /\ ((-30 <= 40)%Z -> t = 20%Z)
    /\ ((700 - 10 <= -30)%Z -> t = 100%Z)
    /\ ((-30 <= 10)%Z -> p = 100%Z)
    /\ ((200 - 40 <= -30)%Z -> p = 0%Z).
Proof.
  apply (mouseMoveEvent_edges 700 200 (-30) (-30)
           (mkWidget default_curve (Some 1%nat)) 1%nat).
  - reflexivity.
  - reflexivity.
  - reflexivity.
  - simpl. lia.
Defined.

(** ** A curve the editor can produce and [interpolate] cannot evaluate *)

(** X12.  When two points of the curve sit at its lowest temperature (as
    after dragging two points to the left edge), [interpolate] raises
    ZeroDivisionError at that temperature. *)
Theorem interpolate_shared_minimum
  (l rest : list point) (t p q : Z) :
  Permutation l ((t, p) :: (t, q) :: rest) ->
  Forall (fun x => (t <= fst x)%Z) rest ->
  interpolate l (inject_Z t) = Raise ZeroDivisionError.
Proof.
  intros Hp Hrest.
  assert (Hps : Permutation (sorted l) ((t, p) :: (t, q) :: rest)).
  { eapply perm_trans; [apply Permutation_sym, sorted_perm|exact Hp]. }
  assert (Hge : Forall (fun x => (t <= fst x)%Z) (sorted l)).
  { eapply Permutation_Forall; [apply Permutation_sym; exact Hps|].
    constructor; [simpl; lia|]. constructor; [simpl; lia|exact Hrest]. }
  assert (Hss : StronglySorted tuple_le (sorted l)).
  { apply Sorted_StronglySorted; [|apply sorted_Sorted].
    intros a b c. apply tuple_le_trans. }
  destruct (sorted l) as [|a [|b r]] eqn:Es.
  - apply Permutation_length in Hps. discriminate.
  - apply Permutation_length in Hps. discriminate.
  - assert (Esl : sorted l = a :: b :: r) by exact Es.
    inversion Hss as [|? ? Hss' Ha]; subst.
    inversion Hge as [|? ? Hta Hge']; subst.
    rewrite Forall_forall in Ha.
    assert (Efa : fst a = t).
    { assert (Hin : In (t, p) (a :: b :: r)).
      { eapply Permutation_in; [apply Permutation_sym; exact Hps|].
        left. reflexivity. }
      destruct Hin as [->|Hin]; [reflexivity|].
      apply Ha, tuple_le_fst in Hin. simpl in Hin. lia. }
    assert (Efb : fst b = t).
    { pose proof (Forall_inv Hge') as Htb. simpl in Htb.
      destruct (Z.eq_dec (fst b) t) as [E|Hne]; [exact E|exfalso].
      pose proof (proj2 (StronglySorted_inv Hss')) as Hb.
      rewrite Forall_forall in Hb.
      assert (Hnot : ~ In t (map fst (b :: r))).
      { intros Hin. apply in_map_iff in Hin.
        destruct Hin as (x & Hx & Hin).
        destruct Hin as [->|Hin]; [congruence|].
        apply Hb, tuple_le_fst in Hin. lia. }
      apply (count_occ_not_In Z.eq_dec) in Hnot.
      pose proof (proj1 (Permutation_count_occ Z.eq_dec _ _)
                    (Permutation_map fst Hps) t) as Hc.
      simpl map in Hc, Hnot.
      rewrite (count_occ_cons_eq Z.eq_dec _ Efa) in Hc.
      rewrite Hnot in Hc.
      rewrite (count_occ_cons_eq Z.eq_dec _ (eq_refl t)) in Hc.
      rewrite (count_occ_cons_eq Z.eq_dec _ (eq_refl t)) in Hc.
      discriminate. }
    apply (interpolate_degenerate_start l (inject_Z t) a b r Esl);
      [congruence|rewrite Efa; reflexivity].
Qed.

(** After the drag of the middle point of the default curve to the upper
    left corner, the curve cannot be evaluated at 20 degrees. *)
Lemma interpolate_shared_minimum_default :
  handle_all [Press 700 200 365 78; Move 700 200 (-30) (-30); Release]
    (mkWidget default_curve None)
  = Return (mkWidget [(20, 31); (20, 100); (100, 100)]%Z None)
  /\ interpolate [(20, 31); (20, 100); (100, 100)]%Z (inject_Z 20)
     = Raise ZeroDivisionError.
Proof.
  split; [reflexivity|].
  apply (interpolate_shared_minimum
           [(20, 31); (20, 100); (100, 100)]%Z [(100, 100)%Z] 20 31 100).
  - apply Permutation_refl.
  - repeat constructor. simpl. lia.
Defined.

(** ** The window: what the operations send and what they leave alone *)

Section WindowProperties.

Variable Client : Type.
Variable is_connected : Client -> bool.
Variable write_gatt_char : Client -> packet -> Client * result unit.

Lemma preserves_get {B} (f : MainWindow Client -> B) :
  preserves f (get (Client:=Client)).
Proof. intros w. reflexivity. Qed.

Lemma preserves_modify {B} (f : MainWindow Client -> B)
  (g : MainWindow Client -> MainWindow Client) :
  (forall w, f (g w) = f w) -> preserves f (modify g).
Proof. intros H w. apply H. Qed.

Lemma preserves_call {B} (f : MainWindow Client -> B) (c : Client)
  (p : packet) :
  transport_blind f -> preserves f (call_write_gatt_char write_gatt_char c p).
Proof.
  intros H w. rewrite call_write_gatt_char_eq. apply H.
Qed.

Ltac blind := unfold transport_blind; intros; reflexivity.

Ltac preserves_step :=
  first
    [ apply preserves_bind; [|intro]
    | apply preserves_ret
    | apply preserves_lift
    | apply preserves_get
    | apply preserves_call; first [assumption|blind]
    | apply preserves_modify; intro; reflexivity
    | match goal with
      | |- preserves _ (match ?x with _ => _ end) => destruct x
      end ].

Ltac preserves_ops :=
  unfold run, update_temperatures, apply_fan_and_pump, apply_rgb,
    apply_curve, set_default_fan_and_pump, on_mode_changed, write_fan_mode,
    write_pump_mode, write_rgb_mode, index;
  repeat preserves_step.

(** An attribute that the transport and the setters of the sample and of
    the mode leave alone is left alone by every operation. *)
Lemma run_preserves {B} (f : MainWindow Client -> B) (i : Intent) :
  transport_blind f ->
  (forall b w, f (set_curve_mode_active b w) = f w) ->
  (forall t w, f (set_last_cpu_temp t w) = f w) ->
  (forall t w, f (set_last_gpu_temp t w) = f w) ->
  preserves f (run is_connected write_gatt_char i).
Proof.
  intros Hb Hm Hc Hg.
  destruct i as [| |[cpu gpu]| |[cpu gpu]]; preserves_ops;
    try (apply preserves_modify; intro; first [apply Hm|apply Hc|apply Hg]).
Qed.

(** X13.  No operation of the window changes the curve, the sliders or
    the RGB selection; only the tick changes the stored temperatures (so
    apply-curve does not store the temperature it reads); and only
    apply-manual and apply-curve change the mode. *)
Theorem run_frame (i : Intent) (w : MainWindow Client) :
  let w' := snd (run is_connected write_gatt_char i w) in
  curve_points w' = curve_points w
  /\ fan_slider w' = fan_slider w
  /\ pump_slider w' = pump_slider w
  /\ rgb_mode w' = rgb_mode w
  /\ rgb_color w' = rgb_color w
  /\ (match i with
      | Tick _ => True
      | _ => last_cpu_temp w' = last_cpu_temp w
             /\ last_gpu_temp w' = last_gpu_temp w
      end)
  /\ (match i with
      | ApplyManual | ApplyCurve _ => True
      | _ => curve_mode_active w' = curve_mode_active w
      end).
Proof.
  cbv zeta.
  split; [apply (run_preserves (@curve_points Client)); blind|].
  split; [apply (run_preserves (@fan_slider Client)); blind|].
  split; [apply (run_preserves (@pump_slider Client)); blind|].
  split; [apply (run_preserves (@rgb_mode Client)); blind|].
  split; [apply (run_preserves (@rgb_color Client)); blind|].
  split.
  - destruct i as [| |[cpu gpu]| |[cpu gpu]]; try exact I; split;
      match goal with
      | |- ?f (snd (?m w)) = ?f w =>
          let P := fresh "P" in
          assert (P : preserves f m) by preserves_ops; apply P
      end.
  - destruct i as [| |[cpu gpu]| |[cpu gpu]]; try exact I;
      match goal with
      | |- ?f (snd (?m w)) = ?f w =>
          let P := fresh "P" in
          assert (P : preserves f m) by preserves_ops; apply P
      end.
Qed.

(** *** What is written *)

Lemma write_fan_mode_cases (c : Client) (d : Z) (w : MainWindow Client) :
  write_fan_mode write_gatt_char c d w
  = if is_byte d
    then (snd (write_gatt_char c (fan_frame d)),
          set_client (Some (fst (write_gatt_char c (fan_frame d))))
            (log_write (fan_frame d) w))
    else (Raise ValueError, w).
Proof.
  destruct (is_byte d) eqn:E.
  - apply (write_fan_mode_eq Client write_gatt_char c d w E).
  - unfold write_fan_mode, bind, lift.
    rewrite fan_packet_out_of_range; [reflexivity|].
    intros H. apply is_byte_iff in H. congruence.
Qed.

Lemma write_pump_mode_eq (c : Client) (v : PumpVoltage)
  (w : MainWindow Client) :
  write_pump_mode write_gatt_char c v w
  = (snd (write_gatt_char c (pump_frame v)),
     set_client (Some (fst (write_gatt_char c (pump_frame v))))
       (log_write (pump_frame v) w)).
Proof.
  unfold write_pump_mode, bind, lift. rewrite pump_packet_eq.
  apply call_write_gatt_char_eq.
Qed.

(** X14.  What a tick writes is bounded by the curve: a tick writes
    nothing or exactly one fan frame, and the duty of that frame lies
    between the smallest and the largest duty of the curve's points. *)
Theorem tick_duty_within_curve
  (s : sample) (w : MainWindow Client) (lo hi : Z) :
  Forall (fun p => (lo <= snd p <= hi)%Z) (curve_points w) ->
  let w' := snd (update_temperatures is_connected write_gatt_char s w) in
  tx_trace w' = tx_trace w
  \/ exists d, (lo <= d <= hi)%Z /\ (0 <= d <= 255)%Z
               /\ tx_trace w' = tx_trace w ++ [fan_frame d].
Proof.
  intros Hall. cbv zeta. rewrite update_temperatures_eq. cbv zeta.
  destruct (curve_mode_active w); [|left; reflexivity].
  destruct (last_cpu_temp (store_sample s w)) as [t|]; [|left; reflexivity].
  destruct (session is_connected w) as [c|]; [|left; reflexivity].
  destruct (interpolate (curve_points w) t) as [v|e] eqn:Ev;
    [|left; reflexivity].
  destruct (interpolate_bounds _ _ _ _ _ Hall Ev) as [H0 H1].
  rewrite write_fan_mode_cases.
  destruct (is_byte (py_int v)) eqn:Eb; [|left; reflexivity].
  right. exists (py_int v).
  split; [apply py_int_between; assumption|].
  split; [apply is_byte_iff; exact Eb|reflexivity].
Qed.

(** X15.  Apply-curve with a CPU reading: the duty sent is computed from
    the temperature just read, not from the stored one; the mode becomes
    Automatic; and the reading is not stored. *)
Theorem apply_curve_sends_fresh
  (w : MainWindow Client) (c : Client) (cpu : Q) (gpu : option Q) (v : Q) :
  session is_connected w = Some c ->
  interpolate (curve_points w) cpu = Return v ->
  is_byte (py_int v) = true ->
  let w' := snd (apply_curve is_connected write_gatt_char (Some cpu, gpu) w) in
  tx_trace w' = tx_trace w ++ [fan_frame (py_int v)]
  /\ curve_mode_active w' = true
  /\ last_cpu_temp w' = last_cpu_temp w
  /\ last_gpu_temp w' = last_gpu_temp w.
Proof.
  intros Hs Hv Hb. cbv zeta.
  unfold apply_curve, bind, get, modify, lift. rewrite Hs. simpl.
  rewrite Hv. rewrite write_fan_mode_cases, Hb. simpl. auto.
Qed.

(** X16.  Apply-manual on a connected session, with the sliders in their
    ranges: the fan frame for the duty of the fan slider (80, 150 or 255)
    is written first; the pump frame for the voltage of the pump slider
    (7, 8, 11 or 12 V) is written after it when the first write returned,
    and is not written when the first write raised, in which case the
    operation ends with that exception. *)
Theorem apply_manual_sends (w : MainWindow Client) (c : Client) :
  session is_connected w = Some c ->
  (fan_slider w <= 2)%nat -> (pump_slider w <= 3)%nat ->
  let duty := nth (fan_slider w) [80; 150; 255]%Z 0%Z in
  let v := nth (pump_slider w) [V7; V8; V11; V12] V7 in
  let r := apply_fan_and_pump is_connected write_gatt_char w in
  match snd (write_gatt_char c (fan_frame duty)) with
  | Return _ =>
      tx_trace (snd r) = tx_trace w ++ [fan_frame duty; pump_frame v]
  | Raise e =>
      tx_trace (snd r) = tx_trace w ++ [fan_frame duty] /\ fst r = Raise e
  end.
Proof.
  intros Hs Hf Hp. cbv zeta.
  unfold apply_fan_and_pump, bind, get, modify, lift, index. rewrite Hs.
  destruct (fan_slider w) as [|[|[|n]]]; try lia;
    destruct (pump_slider w) as [|[|[|[|m]]]]; try lia;
    cbn [nth nth_error];
    rewrite write_fan_mode_cases;
    match goal with
    | |- context [is_byte ?d] => change (is_byte d) with true
    end;
    cbv iota;
    match goal with
    | |- context [write_gatt_char c (fan_frame ?d)] =>
        destruct (write_gatt_char c (fan_frame d)) as [c1 [u|e]]
    end;
    simpl;
    try (split; reflexivity);
    rewrite write_pump_mode_eq; simpl; rewrite <- app_assoc; reflexivity.
Qed.

(** X17.  The default bring-up on a connected session writes the fan
    frame for duty 150 and then, when that write returned, the pump frame
    for 8 V; when the first write raised, nothing more is written and the
    operation ends with that exception. *)
Theorem default_bring_up_sends (w : MainWindow Client) (c : Client) :
  session is_connected w = Some c ->
  let r := set_default_fan_and_pump is_connected write_gatt_char w in
  match snd (write_gatt_char c (fan_frame 150)) with
  | Return _ =>
      tx_trace (snd r) = tx_trace w ++ [fan_frame 150; pump_frame V8]
  | Raise e =>
      tx_trace (snd r) = tx_trace w ++ [fan_frame 150] /\ fst r = Raise e
  end.
Proof.
  intros Hs. cbv zeta.
  unfold set_default_fan_and_pump, bind, get. rewrite Hs.
  rewrite write_fan_mode_cases.
  change (is_byte 150) with true. cbv iota.
  destruct (write_gatt_char c (fan_frame 150)) as [c1 [u|e]]; simpl.
  - rewrite write_pump_mode_eq. simpl. rewrite <- app_assoc. reflexivity.
  - split; reflexivity.
Qed.

(** X18.  Apply-RGB on a connected session writes one RGB frame: in
    rainbow mode with the colour bytes zero whatever colour is selected,
    in the other modes with the selected colour (whose components must be
    bytes). *)
Theorem apply_rgb_sends (w : MainWindow Client) (c : Client) :
  session is_connected w = Some c ->
  rgb_mode w = RAINBOW
  \/ (let '(r, g, b) := rgb_color w in
      is_byte r = true /\ is_byte g = true /\ is_byte b = true) ->
  tx_trace (snd (apply_rgb is_connected write_gatt_char w))
  = tx_trace w
    ++ [rgb_frame (rgb_mode w)
          (if RGBMode_eqb (rgb_mode w) RAINBOW then (0, 0, 0)%Z
           else rgb_color w)].
Proof.
  intros Hs Hc. unfold apply_rgb, bind, get. rewrite Hs.
  unfold write_rgb_mode, bind, lift.
  destruct (RGBMode_eqb (rgb_mode w) RAINBOW) eqn:Em.
  - rewrite rgb_packet_cases. simpl.
    assert (Hb : is_byte (RGBMode_int (rgb_mode w)) = true)
      by (destruct (rgb_mode w); reflexivity).
    rewrite call_write_gatt_char_eq. reflexivity.
  - destruct Hc as [Hc|Hc]; [rewrite Hc in Em; discriminate|].
    destruct (rgb_color w) as [[r g] b]. destruct Hc as (Hr & Hg & Hb).
    rewrite rgb_packet_cases, Hr, Hg, Hb. simpl.
    rewrite call_write_gatt_char_eq. reflexivity.
Qed.

(** *** Sequences of events *)

Lemma appends_ret {A} (P : packet -> Prop) (a : A) :
  appends P (ret (Client:=Client) a).
Proof. intros w. exists []. rewrite app_nil_r. split; [reflexivity|constructor]. Qed.

Lemma appends_lift {A} (P : packet -> Prop) (r : result A) :
  appends P (lift (Client:=Client) r).
Proof. intros w. exists []. rewrite app_nil_r. split; [reflexivity|constructor]. Qed.

Lemma appends_get (P : packet -> Prop) : appends P (get (Client:=Client)).
Proof. intros w. exists []. rewrite app_nil_r. split; [reflexivity|constructor]. Qed.

Lemma appends_modify (P : packet -> Prop)
  (g : MainWindow Client -> MainWindow Client) :
  (forall w, tx_trace (g w) = tx_trace w) -> appends P (modify g).
Proof.
  intros H w. exists []. rewrite app_nil_r. split; [apply H|constructor].
Qed.

Lemma appends_bind {A B} (P : packet -> Prop)
  (m : M Client A) (k : A -> M Client B) :
  appends P m -> (forall a w, fst (m w) = Return a -> appends P (k a)) ->
  appends P (bind m k).
Proof.
  intros Hm Hk w. unfold bind. destruct (Hm w) as (l1 & E1 & F1).
  destruct (m w) as [[a|e] w1] eqn:Emw; simpl in *.
  - assert (Ha : fst (m w) = Return a) by (rewrite Emw; reflexivity).
    destruct (Hk a w Ha w1) as (l2 & E2 & F2).
    exists (l1 ++ l2). rewrite E2, E1, app_assoc.
    split; [reflexivity|]. apply Forall_app. split; assumption.
  - exists l1. split; assumption.
Qed.

Lemma appends_call (P : packet -> Prop) (c : Client) (p : packet) :
  P p -> appends P (call_write_gatt_char write_gatt_char c p).
Proof.
  intros Hp w. rewrite call_write_gatt_char_eq. exists [p].
  split; [reflexivity|]. constructor; [exact Hp|constructor].
Qed.

Lemma write_fan_mode_frames (c : Client) (d : Z) :
  appends is_frame (write_fan_mode write_gatt_char c d).
Proof.
  apply appends_bind; [apply appends_lift|]. intros p w H.
  apply appends_call. apply (fan_packet_is_frame d). exact H.
Qed.

Lemma write_pump_mode_frames (c : Client) (v : PumpVoltage) :
  appends is_frame (write_pump_mode write_gatt_char c v).
Proof.
  apply appends_bind; [apply appends_lift|]. intros p w H.
  apply appends_call. apply (pump_packet_is_frame v). exact H.
Qed.

Lemma write_rgb_mode_frames (c : Client) (m : RGBMode) (col : Z * Z * Z) :
  appends is_frame (write_rgb_mode write_gatt_char c m col).
Proof.
  apply appends_bind; [apply appends_lift|]. intros p w H.
  apply appends_call. apply (rgb_packet_is_frame m col). exact H.
Qed.

Ltac appends_step :=
  first
    [ apply write_fan_mode_frames
    | apply write_pump_mode_frames
    | apply write_rgb_mode_frames
    | apply appends_bind; [|intros ? ? ?]
    | apply appends_ret
    | apply appends_lift
    | apply appends_get
    | apply appends_modify; intro; reflexivity
    | match goal with
      | |- appends _ (match ?x with _ => _ end) => destruct x
      end ].

Lemma run_frames (i : Intent) :
  appends is_frame (run is_connected write_gatt_char i).
Proof.
  destruct i as [| |[cpu gpu]| |[cpu gpu]];
    unfold run, update_temperatures, apply_fan_and_pump, apply_rgb,
      apply_curve, set_default_fan_and_pump, index;
    repeat appends_step.
Qed.

Lemma after_event_frames (ev : Event Client) (w : MainWindow Client) :
  exists l,
    tx_trace (after_event is_connected write_gatt_char ev w)
    = tx_trace w ++ l
    /\ Forall is_frame l.
Proof.
  destruct ev as [i|index|f]; simpl.
  - apply run_frames.
  - exists []. rewrite app_nil_r. split; [|constructor].
    unfold on_mode_changed. destruct (index =? 0)%Z; reflexivity.
  - exists []. rewrite app_nil_r. split; [reflexivity|constructor].
Qed.

(** X19.  Over any sequence of operations, mode changes and link
    changes, the packets handed to the transport only accumulate, and
    each of them is a frame of the protocol: 8 bytes, each in [[0,255]],
    the first 0xFE and the last 0xEF. *)
Theorem traffic_is_frames
  (evs : list (Event Client)) (w : MainWindow Client) :
  exists l,
    tx_trace (after_events is_connected write_gatt_char evs w)
    = tx_trace w ++ l
    /\ Forall is_frame l.
Proof.
  revert w. induction evs as [|ev evs IH]; intros w.
  - exists []. rewrite app_nil_r. split; [reflexivity|constructor].
  - change (after_events is_connected write_gatt_char (ev :: evs) w)
      with (after_events is_connected write_gatt_char evs
              (after_event is_connected write_gatt_char ev w)).
    destruct (after_event_frames ev w) as (l1 & E1 & F1).
    destruct (IH (after_event is_connected write_gatt_char ev w))
      as (l2 & E2 & F2).
    exists (l1 ++ l2). rewrite E2, E1, app_assoc.
    split; [reflexivity|]. apply Forall_app. split; assumption.
Qed.

Lemma after_event_last_cpu_temp (ev : Event Client) (w : MainWindow Client) :
  last_cpu_temp (after_event is_connected write_gatt_char ev w)
  = match ev with
    | Op (Tick s) => sticky (fst s) (last_cpu_temp w)
    | _ => last_cpu_temp w
    end.
Proof.
  destruct ev as [i|index|f]; simpl.
  - destruct i as [| |[cpu gpu]| |[cpu gpu]];
      try (match goal with
           | |- ?f (snd (?m w)) = ?f w =>
               let P := fresh "P" in
               assert (P : preserves f m) by preserves_ops; apply P
           end).
    unfold run. rewrite update_temperatures_eq. cbv zeta.
    assert (P : forall c d, preserves (@last_cpu_temp Client)
                              (write_fan_mode write_gatt_char c d))
      by (intros; preserves_ops).
    destruct (curve_mode_active w); [|reflexivity].
    destruct (last_cpu_temp (store_sample (cpu, gpu) w)); [|reflexivity].
    destruct (session is_connected w); [|reflexivity].
    destruct (interpolate (curve_points w) q); [|reflexivity].
    rewrite P. reflexivity.
  - unfold on_mode_changed. destruct (index =? 0)%Z; reflexivity.
  - reflexivity.
Qed.

(** X20.  Over any sequence of events the stored CPU temperature is the
    last CPU value that a tick's sample carried (the initial one when no
    sample carried any): failed reads, other operations and link changes
    never erase it, so once a CPU temperature is known it stays known. *)
Theorem last_cpu_temp_after_events
  (evs : list (Event Client)) (w : MainWindow Client) :
  last_cpu_temp (after_events is_connected write_gatt_char evs w)
  = fold_left (fun acc s => sticky (fst s) acc) (tick_samples evs)
      (last_cpu_temp w)
  /\ (last_cpu_temp w <> None ->
      last_cpu_temp (after_events is_connected write_gatt_char evs w)
      <> None).
Proof.
  assert (G : forall evs w,
    last_cpu_temp (after_events is_connected write_gatt_char evs w)
    = fold_left (fun acc s => sticky (fst s) acc) (tick_samples evs)
        (last_cpu_temp w)).
  { clear evs w. induction evs as [|ev evs IH]; intros w; [reflexivity|].
    change (after_events is_connected write_gatt_char (ev :: evs) w)
      with (after_events is_connected write_gatt_char evs
              (after_event is_connected write_gatt_char ev w)).
    rewrite IH, after_event_last_cpu_temp.
    destruct ev as [[| |s1| |s1]|index|f]; try reflexivity. }
  split; [apply G|]. rewrite G.
  generalize (last_cpu_temp w). induction (tick_samples evs) as [|s l IH].
  - intros o Ho. exact Ho.
  - intros o Ho. simpl. apply IH.
    destruct s as [[t|] g]; simpl; [discriminate|exact Ho].
Qed.

Lemma after_events_cons (ev : Event Client) (evs : list (Event Client))
  (w : MainWindow Client) :
  after_events is_connected write_gatt_char (ev :: evs) w
  = after_events is_connected write_gatt_char evs
      (after_event is_connected write_gatt_char ev w).
Proof. reflexivity. Qed.

(** X21.  In Manual mode the controller sends nothing by itself: over
    any sequence of ticks, mode-page changes and link changes, no packet
    is written and the mode stays Manual. *)
Theorem manual_mode_is_silent
  (evs : list (Event Client)) (w : MainWindow Client) :
  curve_mode_active w = false -> Forall passive evs ->
  tx_trace (after_events is_connected write_gatt_char evs w) = tx_trace w
  /\ curve_mode_active (after_events is_connected write_gatt_char evs w)
     = false.
Proof.
  revert w. induction evs as [|ev evs IH]; intros w Hm Hp.
  - split; [reflexivity|exact Hm].
  - rewrite after_events_cons. inversion Hp as [|? ? Hev Hevs]; subst.
    assert (H1 : tx_trace (after_event is_connected write_gatt_char ev w)
                 = tx_trace w
                 /\ curve_mode_active
                      (after_event is_connected write_gatt_char ev w)
                    = false).
    { destruct ev as [[| |s1| |s1]|index|f]; simpl in Hev; try contradiction;
        simpl.
      - rewrite update_temperatures_eq, Hm. cbv zeta. simpl.
        split; [reflexivity|exact Hm].
      - unfold on_mode_changed. destruct (index =? 0)%Z; simpl;
          split; try reflexivity; exact Hm.
      - split; [reflexivity|exact Hm]. }
    destruct H1 as [Ht Hm1].
    destruct (IH _ Hm1 Hevs) as [Ht' Hm']. split; [congruence|exact Hm'].
Qed.

Lemma run_without_session (i : Intent) (w : MainWindow Client) :
  session is_connected w = None ->
  run is_connected write_gatt_char i w
  = (Return tt, match i with Tick s => store_sample s w | _ => w end).
Proof.
  intros Hs. destruct i as [| |s1| |s1]; simpl.
  - unfold apply_fan_and_pump, bind, get. rewrite Hs. reflexivity.
  - unfold apply_rgb, bind, get. rewrite Hs. reflexivity.
  - unfold apply_curve, bind, get. rewrite Hs. reflexivity.
  - unfold set_default_fan_and_pump, bind, get. rewrite Hs. reflexivity.
  - rewrite update_temperatures_eq, Hs. cbv zeta.
    destruct (curve_mode_active w); [|reflexivity].
    destruct (last_cpu_temp (store_sample s1 w)); reflexivity.
Qed.

(** X22.  While the link is down nothing reaches the transport, whatever
    the user does: over any sequence of operations and mode-page changes
    that starts without a connected session, no packet is written, the
    session stays unconnected, and automatic mode cannot be switched on. *)
Theorem link_down_is_silent
  (evs : list (Event Client)) (w : MainWindow Client) :
  connected is_connected w = false -> Forall link_steady evs ->
  let w' := after_events is_connected write_gatt_char evs w in
  tx_trace w' = tx_trace w
  /\ connected is_connected w' = false
  /\ (curve_mode_active w = false -> curve_mode_active w' = false).
Proof.
  cbv zeta. revert w. induction evs as [|ev evs IH]; intros w Hc Hp.
  - auto.
  - rewrite after_events_cons. inversion Hp as [|? ? Hev Hevs]; subst.
    pose proof (proj1 (not_connected_session _ is_connected w) Hc) as Hs.
    assert (H1 : tx_trace (after_event is_connected write_gatt_char ev w)
                 = tx_trace w
                 /\ client (after_event is_connected write_gatt_char ev w)
                    = client w
                 /\ (curve_mode_active w = false ->
                     curve_mode_active
                       (after_event is_connected write_gatt_char ev w)
                     = false)).
    { destruct ev as [i|index|f]; simpl in Hev; try contradiction; simpl.
      - rewrite (run_without_session i w Hs). simpl.
        destruct i; auto.
      - unfold on_mode_changed. destruct (index =? 0)%Z; simpl; auto. }
    destruct H1 as (Ht & Hcl & Hm).
    assert (Hc1 : connected is_connected
                    (after_event is_connected write_gatt_char ev w) = false).
    { unfold connected, session in *. rewrite Hcl. exact Hc. }
    destruct (IH _ Hc1 Hevs) as (Ht' & Hc' & Hm').
    split; [congruence|]. split; [exact Hc'|]. auto.
Qed.

Lemma handle_all_in_box (evs : list MouseEvent) (fw fw' : FanCurveWidget) :
  selection_valid fw -> Forall in_box (points fw) ->
  handle_all evs fw = Return fw' -> Forall in_box (points fw').
Proof.
  revert fw. induction evs as [|ev evs IH]; intros fw Hv Hbox H; simpl in H.
  - inversion H; subst. exact Hbox.
  - pose proof (handle_keeps ev fw Hv Hbox) as Hk.
    destruct (handle ev fw) as [fw1|e]; [|discriminate].
    destruct Hk as (Hv1 & Hbox1 & _). eapply IH; eassumption.
Qed.

(** X23.  However the curve has been edited with the mouse, a tick
    writes nothing or one fan frame whose duty is between 0 and 100: the
    automatic controller never commands more than 100 of the 255 steps
    that apply-manual uses at "Max". *)
Theorem tick_after_edits
  (evs : list MouseEvent) (fw fw' : FanCurveWidget)
  (s : sample) (w : MainWindow Client) :
  selection_valid fw -> Forall in_box (points fw) ->
  handle_all evs fw = Return fw' ->
  curve_points w = points fw' ->
  let w' := snd (update_temperatures is_connected write_gatt_char s w) in
  tx_trace w' = tx_trace w
  \/ exists d, (0 <= d <= 100)%Z /\ tx_trace w' = tx_trace w ++ [fan_frame d].
Proof.
  intros Hv Hbox Hh Hw. cbv zeta.
  pose proof (handle_all_in_box evs fw fw' Hv Hbox Hh) as Hbox'.
  assert (Hall : Forall (fun p => (0 <= snd p <= 100)%Z) (curve_points w)).
  { rewrite Hw. eapply Forall_impl; [|exact Hbox'].
    intros p [_ Hp]. exact Hp. }
  rewrite update_temperatures_eq. cbv zeta.
  destruct (curve_mode_active w); [|left; reflexivity].
  destruct (last_cpu_temp (store_sample s w)) as [t|]; [|left; reflexivity].
  destruct (session is_connected w) as [c|]; [|left; reflexivity].
  destruct (interpolate (curve_points w) t) as [v|e] eqn:Ev;
    [|left; reflexivity].
  destruct (interpolate_bounds _ _ _ _ _ Hall Ev) as [H0 H1].
  pose proof (py_int_between v 0 100 H0 H1) as Hd.
  rewrite write_fan_mode_cases.
  rewrite (proj2 (is_byte_iff (py_int v))) by lia.
  right. exists (py_int v). split; [exact Hd|reflexivity].
Qed.

End WindowProperties.

(** ** Closed instances of the window's properties *)

Lemma tick_duty_within_curve_default :
  let w := test_window (Some (mkTestClient true true)) true (Some 45) in
  let w' := snd (update_temperatures link_up test_write_gatt_char
                   (None, None) w) in
  tx_trace w' = tx_trace w
  \/ exists d, (31 <= d <= 100)%Z /\ (0 <= d <= 255)%Z
               /\ tx_trace w' = tx_trace w ++ [fan_frame d].
Proof.
  apply (tick_duty_within_curve TestClient link_up test_write_gatt_char
           (None, None)
           (test_window (Some (mkTestClient true true)) true (Some 45))
           31 100).
  repeat constructor; simpl; lia.
Defined.

Lemma apply_curve_sends_fresh_default :
  let w := test_window (Some (mkTestClient true true)) false (Some 90) in
  let w' := snd (apply_curve link_up test_write_gatt_char
                   (Some 45, None) w) in
  tx_trace w' = tx_trace w ++ [fan_frame 47]
  /\ curve_mode_active w' = true
  /\ last_cpu_temp w' = Some 90
  /\ last_gpu_temp w' = None.
Proof.
  apply (apply_curve_sends_fresh TestClient link_up test_write_gatt_char
           (test_window (Some (mkTestClient true true)) false (Some 90))
           (mkTestClient true true) 45 None (1915 # 40)); reflexivity.
Defined.

Lemma apply_manual_sends_default :
  let w := test_window (Some (mkTestClient true true)) true None in
  tx_trace (snd (apply_fan_and_pump link_up test_write_gatt_char w))
  = tx_trace w ++ [fan_frame 80; pump_frame V7].
Proof.
  apply (apply_manual_sends TestClient link_up test_write_gatt_char
           (test_window (Some (mkTestClient true true)) true None)
           (mkTestClient true true)).
  - reflexivity.
  - simpl. lia.
  - simpl. lia.
Defined.

Lemma default_bring_up_sends_default :
  let w := test_window (Some (mkTestClient true false)) false None in
  let r := set_default_fan_and_pump link_up test_write_gatt_char w in
  tx_trace (snd r) = tx_trace w ++ [fan_frame 150]
  /\ fst r = Raise BleakError.
Proof.
  apply (default_bring_up_sends TestClient link_up test_write_gatt_char
           (test_window (Some (mkTestClient true false)) false None)
           (mkTestClient true false)).
  reflexivity.
Defined.

Lemma apply_rgb_sends_default :
  let w := test_window (Some (mkTestClient true true)) false None in
  tx_trace (snd (apply_rgb link_up test_write_gatt_char w))
  = tx_trace w ++ [rgb_frame STATIC (255, 0, 0)%Z].
Proof.
  apply (apply_rgb_sends TestClient link_up test_write_gatt_char
           (test_window (Some (mkTestClient true true)) false None)
           (mkTestClient true true)).
  - reflexivity.
  - right. simpl. repeat split.
Defined.

Lemma last_cpu_temp_after_events_default :
  let w := test_window (Some (mkTestClient true true)) false (Some 45) in
  let evs := [Op (Tick (None, Some 60)); Op ApplyRgb;
              LinkChanged (fun c => mkTestClient false (accepts_writes c));
              Op (Tick (None, None))] in
  last_cpu_temp (after_events link_up test_write_gatt_char evs w) <> None.
Proof.
  apply (proj2 (last_cpu_temp_after_events TestClient link_up
                  test_write_gatt_char
                  [Op (Tick (None, Some 60)); Op ApplyRgb;
                   LinkChanged (fun c => mkTestClient false (accepts_writes c));
                   Op (Tick (None, None))]
                  (test_window (Some (mkTestClient true true)) false
                     (Some 45)))).
  discriminate.
Defined.

Lemma manual_mode_is_silent_default :
  let w := test_window (Some (mkTestClient true true)) false None in
  let evs := [Op (Tick (Some 45, None)); ModeChanged 1;
              Op (Tick (Some 50, None))] in
  tx_trace (after_events link_up test_write_gatt_char evs w) = tx_trace w
  /\ curve_mode_active (after_events link_up test_write_gatt_char evs w)
     = false.
Proof.
  apply (manual_mode_is_silent TestClient link_up test_write_gatt_char
           [Op (Tick (Some 45, None)); ModeChanged 1;
            Op (Tick (Some 50, None))]
           (test_window (Some (mkTestClient true true)) false None)).
  - reflexivity.
  - repeat constructor.
Defined.

Lemma link_down_is_silent_default :
  let w := test_window (Some (mkTestClient false true)) false None in
  let evs := [Op ApplyManual; Op (ApplyCurve (Some 45, None));
              Op (Tick (Some 45, None)); Op ApplyRgb; Op DefaultBringUp] in
  let w' := after_events link_up test_write_gatt_char evs w in
  tx_trace w' = tx_trace w
  /\ connected link_up w' = false
  /\ (curve_mode_active w = false -> curve_mode_active w' = false).
Proof.
  apply (link_down_is_silent TestClient link_up test_write_gatt_char
           [Op ApplyManual; Op (ApplyCurve (Some 45, None));
            Op (Tick (Some 45, None)); Op ApplyRgb; Op DefaultBringUp]
           (test_window (Some (mkTestClient false true)) false None)).
  - reflexivity.
  - repeat constructor.
Defined.

Lemma tick_after_edits_default :
  let w := mkWindow (Some (mkTestClient true true))
             [(20, 31); (20, 100); (100, 100)]%Z true (Some 45) None
             0%nat 0%nat STATIC (255, 0, 0)%Z [] in
  let w' := snd (update_temperatures link_up test_write_gatt_char
                   (None, None) w) in
  tx_trace w' = tx_trace w
  \/ exists d, (0 <= d <= 100)%Z /\ tx_trace w' = tx_trace w ++ [fan_frame d].
Proof.
  apply (tick_after_edits TestClient link_up test_write_gatt_char
           [Press 700 200 365 78; Move 700 200 (-30) (-30); Release]
           (mkWidget default_curve None)
           (mkWidget [(20, 31); (20, 100); (100, 100)]%Z None)
           (None, None)
           (mkWindow (Some (mkTestClient true true))
              [(20, 31); (20, 100); (100, 100)]%Z true (Some 45) None
              0%nat 0%nat STATIC (255, 0, 0)%Z [])).
  - exact I.
  - repeat constructor; simpl; lia.
  - reflexivity.
  - reflexivity.
Defined.

(** ** Discovery *)

Lemma prefix_iff (m s : String.string) :
  String.prefix m s = true <-> exists post, s = String.append m post.
Proof.
  revert s. induction m as [|a m IH]; intros s.
  - split; [intros _; exists s; reflexivity|].
    intros _. destruct s; reflexivity.
  - destruct s as [|b s]; simpl.
    + split; [discriminate|]. intros [post H]. discriminate.
    + destruct (Ascii.ascii_dec a b) as [->|Hne].
      * rewrite IH. split; intros [post H]; exists post.
        -- rewrite H. reflexivity.
        -- inversion H. reflexivity.
      * split; [discriminate|]. intros [post H]. inversion H. congruence.
Qed.

Lemma contains_unfold (m s : String.string) :
  contains m s
  = String.prefix m s
    || match s with
       | String.EmptyString => false
       | String.String _ s' => contains m s'
       end.
Proof. destruct s; reflexivity. Qed.

Lemma contains_iff (m s : String.string) :
  contains m s = true <->
  exists pre post, s = String.append pre (String.append m post).
Proof.
  split.
  - induction s as [|c s IH]; rewrite contains_unfold; intros H;
      apply orb_true_iff in H; destruct H as [H|H].
    + apply prefix_iff in H. destruct H as [post H].
      exists String.EmptyString, post. exact H.
    + discriminate.
    + apply prefix_iff in H. destruct H as [post H].
      exists String.EmptyString, post. exact H.
    + destruct (IH H) as (pre & post & E).
      exists (String.String c pre), post. simpl. rewrite E. reflexivity.
  - intros (pre & post & E). subst s.
    induction pre as [|c pre IH]; rewrite contains_unfold.
    + apply orb_true_iff. left. apply prefix_iff. exists post. reflexivity.
    + apply orb_true_iff. right. exact IH.
Qed.

(** X24.  [scan_devices] lists exactly the discovered devices that have
    a non-empty name in which one of the model strings occurs, each with
    its name and address. *)
Theorem scan_devices_lists
  (models : list String.string) (devices : list BLEDevice.t)
  (n a : String.string) :
  In (n, a) (scan_devices models devices) <->
  exists d,
    In d devices
    /\ BLEDevice.name d = Some n /\ BLEDevice.address d = a
    /\ n <> String.EmptyString
    /\ exists m pre post,
         In m models /\ n = String.append pre (String.append m post).
Proof.
  unfold scan_devices. rewrite in_flat_map. split.
  - intros (d & Hd & Hin). exists d. split; [exact Hd|].
    destruct (BLEDevice.name d) as [n'|]; [|destruct Hin].
    destruct (name_truthy (Some n')
              && existsb (fun m => contains m n') models) eqn:E;
      [|destruct Hin].
    destruct Hin as [Hin|[]]. inversion Hin; subst n' a.
    apply andb_true_iff in E. destruct E as [Ht Hm].
    split; [reflexivity|]. split; [reflexivity|].
    split; [intros ->; discriminate|].
    apply existsb_exists in Hm. destruct Hm as (m & Hmin & Hc).
    apply contains_iff in Hc. destruct Hc as (pre & post & Hc).
    exists m, pre, post. split; assumption.
  - intros (d & Hd & Hn & Ha & Hne & m & pre & post & Hm & E).
    exists d. split; [exact Hd|]. rewrite Hn.
    assert (Ht : name_truthy (Some n) = true)
      by (destruct n; [congruence|reflexivity]).
    assert (Hc : existsb (fun m => contains m n) models = true).
    { apply existsb_exists. exists m. split; [exact Hm|].
      apply contains_iff. exists pre, post. exact E. }
    rewrite Ht, Hc. simpl. left. congruence.
Qed.

(** ** The sensor read *)

Lemma pick_app (l1 l2 : list Hardware.ISensor) (d : option Q) :
  pick (l1 ++ l2) d = pick l2 (pick l1 d).
Proof.
  unfold pick. rewrite rev_app_distr.
  destruct (rev l2) as [|s r]; reflexivity.
Qed.

Lemma read_sensors_pick (key : String.string)
  (sensors : list Hardware.ISensor) (temp : option Q) :
  read_sensors key sensors temp
  = pick (filter (sensor_matches key) sensors) temp.
Proof.
  unfold read_sensors. revert temp.
  induction sensors as [|s l IH]; intros temp; [reflexivity|].
  simpl. rewrite IH. destruct (sensor_matches key s); [|reflexivity].
  change (s :: filter (sensor_matches key) l)
    with ([s] ++ filter (sensor_matches key) l).
  rewrite pick_app. reflexivity.
Qed.

Lemma visited_sensors_cons (is_type : Hardware.HardwareType -> bool)
  (key : String.string) (hw : Hardware.IHardware)
  (hws : list Hardware.IHardware) :
  visited_sensors is_type key (hw :: hws)
  = (if negb (Hardware.Update_raises hw)
        && is_type (Hardware.Hardware_Type hw)
     then filter (sensor_matches key) (Hardware.Sensors hw) else [])
    ++ visited_sensors is_type key hws.
Proof.
  unfold visited_sensors. simpl.
  destruct (negb (Hardware.Update_raises hw)
            && is_type (Hardware.Hardware_Type hw)); [|reflexivity].
  simpl. apply filter_app.
Qed.

Lemma read_all_hardware (hws : list Hardware.IHardware) (c g : option Q) :
  fold_left read_hardware hws (c, g)
  = (pick (visited_sensors is_cpu "Package"%string hws) c,
     pick (visited_sensors is_gpu "Core"%string hws) g).
Proof.
  revert c g. induction hws as [|hw hws IH]; intros c g; [reflexivity|].
  simpl fold_left. rewrite !visited_sensors_cons, !pick_app.
  unfold read_hardware.
  destruct (Hardware.Update_raises hw); simpl; [apply IH|].
  destruct (Hardware.Hardware_Type hw); simpl;
    rewrite ?read_sensors_pick; apply IH.
Qed.

(** X25.  [get_temperatures] returns, for the CPU, the value of the last
    temperature sensor with "Package" in its name among the CPU items
    whose update did not raise, and for the GPU the value of the last
    temperature sensor with "Core" in its name among the Nvidia and AMD
    GPU items whose update did not raise; [None] where there is no such
    sensor or the last one has no value.  An item whose update raises is
    skipped and the read goes on; when opening or closing the computer
    raises, both results are [None]. *)
Theorem get_temperatures_last_reading (comp : Hardware.Computer) :
  get_temperatures comp
  = if Hardware.Open_raises comp || Hardware.Close_raises comp
    then (None, None)
    else (last_value
            (visited_sensors is_cpu "Package"%string (Hardware.Hardware comp)),
          last_value
            (visited_sensors is_gpu "Core"%string (Hardware.Hardware comp))).
Proof.
  unfold get_temperatures.
  destruct (Hardware.Open_raises comp); [reflexivity|].
  destruct (Hardware.Close_raises comp); [reflexivity|].
  simpl. apply read_all_hardware.
Qed.

(** ** A rising curve gives a rising duty *)

Lemma rising_sorted (s : list point) :
  StronglySorted rising s -> sorted s = s.
Proof.
  intros H. symmetry. apply sorted_unique; [apply Permutation_refl|].
  apply StronglySorted_Sorted.
  induction H as [|a m Hs IH Ha]; constructor; [exact IH|].
  eapply Forall_impl; [|exact Ha].
  intros b [Hlt _]. unfold tuple_le, tuple_leb.
  apply orb_true_iff. left. apply Z.ltb_lt. exact Hlt.
Qed.

Lemma line_monotone (P0 P1 T0 T1 x y : Q) :
  T0 < T1 -> P0 <= P1 -> x <= y ->
  P0 + (P1 - P0) * (x - T0) / (T1 - T0)
  <= P0 + (P1 - P0) * (y - T0) / (T1 - T0).
Proof.
  intros Ht Hp Hxy.
  apply Qplus_le_r.
  apply Qle_shift_div_l; [lra|].
  assert (E : (P1 - P0) * (x - T0) / (T1 - T0) * (T1 - T0)
              == (P1 - P0) * (x - T0)) by (field; lra).
  rewrite E. nra.
Qed.

Lemma rising_last (l : list point) (p : point) :
  StronglySorted rising l -> In p l ->
  (snd p <= snd (last l (0, 0)%Z))%Z.
Proof.
  induction 1 as [|a m Hs IH Ha]; intros Hin; [destruct Hin|].
  destruct m as [|b m'].
  - destruct Hin as [->|[]]. simpl. lia.
  - change (last (a :: b :: m') (0, 0)%Z) with (last (b :: m') (0, 0)%Z).
    destruct Hin as [<-|Hin].
    + rewrite Forall_forall in Ha.
      assert (Hl : In (last (b :: m') (0, 0)%Z) (b :: m'))
        by (apply last_in; discriminate).
      destruct (Ha _ Hl) as [_ H]. exact H.
    + apply IH. exact Hin.
Qed.

Lemma rising_bounds (b : point) (m : list point) :
  StronglySorted rising (b :: m) ->
  Forall (fun p => (snd b <= snd p <= snd (last (b :: m) (0, 0)%Z))%Z)
    (b :: m).
Proof.
  intros Hs. apply Forall_forall. intros p Hin. split.
  - destruct Hin as [<-|Hin]; [lia|].
    pose proof (proj2 (StronglySorted_inv Hs)) as Hb.
    rewrite Forall_forall in Hb. destruct (Hb _ Hin) as [_ H]. exact H.
  - apply rising_last; assumption.
Qed.

(** On an ascending list with rising duties, from the first point's
    temperature on, the value does not decrease with the temperature. *)
Lemma interpolate_rising_sorted (s : list point) :
  StronglySorted rising s ->
  forall (a : point) (temp1 temp2 v1 v2 : Q),
    hd_error s = Some a ->
    inject_Z (fst a) <= temp1 -> temp1 <= temp2 ->
    interpolate s temp1 = Return v1 ->
    interpolate s temp2 = Return v2 ->
    v1 <= v2.
Proof.
  induction 1 as [|a m Hs IH Ha]; intros a0 temp1 temp2 v1 v2 Hhd H1 H12 E1 E2.
  - discriminate.
  - simpl in Hhd. inversion Hhd; subst a0. clear Hhd.
    assert (Hsa : StronglySorted rising (a :: m)) by (constructor; assumption).
    destruct m as [|b m'].
    + (* one point *)
      unfold interpolate in E1, E2. rewrite (rising_sorted _ Hsa) in E1, E2.
      simpl in E1, E2. inversion E1; inversion E2; subst. apply Qle_refl.
    + assert (Hab : rising a b) by (inversion Ha; assumption).
      destruct Hab as [Hlt Hle].
      pose proof (rising_bounds b m' Hs) as Hdm.
      assert (Etail : forall temp, Qle_bool temp (inject_Z (fst b)) = false ->
                interpolate (a :: b :: m') temp = interpolate (b :: m') temp).
      { intros temp Hf. unfold interpolate.
        rewrite (rising_sorted _ Hsa), (rising_sorted _ Hs).
        rewrite segments_cons2. simpl find. unfold brackets at 1. simpl.
        rewrite Hf, andb_false_r.
        destruct (find (brackets temp) (segments (b :: m'))); reflexivity. }
      assert (Ehead : forall temp, inject_Z (fst a) <= temp ->
                Qle_bool temp (inject_Z (fst b)) = true ->
                interpolate (a :: b :: m') temp
                = Return (inject_Z (snd a)
                          + inject_Z (snd b - snd a) * (temp - inject_Z (fst a))
                            / inject_Z (fst b - fst a))).
      { intros temp Hl Hr. unfold interpolate.
        rewrite (rising_sorted _ Hsa). rewrite segments_cons2. simpl find.
        unfold brackets at 1. simpl.
        rewrite Hr, (proj2 (Qle_bool_iff _ _) Hl). simpl.
        destruct a as [ta pa], b as [tb pb]. simpl in *.
        destruct (Z.eqb_spec (tb - ta) 0) as [?|_]; [lia|]. reflexivity. }
      destruct (Qle_bool temp1 (inject_Z (fst b))) eqn:B1.
      * rewrite (Ehead temp1 H1 B1) in E1. inversion E1; subst v1. clear E1.
        apply Qle_bool_iff in B1.
        destruct (Qle_bool temp2 (inject_Z (fst b))) eqn:B2.
        -- rewrite (Ehead temp2 (Qle_trans _ _ _ H1 H12) B2) in E2.
           inversion E2; subst v2. rewrite !inject_Z_minus.
           apply line_monotone; [rewrite <- Zlt_Qlt; exact Hlt
                                |rewrite <- Zle_Qle; exact Hle|exact H12].
        -- rewrite (Etail temp2 B2) in E2.
           apply Qle_trans with (inject_Z (snd b)).
           ++ rewrite !inject_Z_minus.
              apply (line_bounds (inject_Z (snd a)) (inject_Z (snd b))
                       (inject_Z (fst a)) (inject_Z (fst b)) temp1
                       (inject_Z (snd a)) (inject_Z (snd b)));
                try assumption; try apply Qle_refl;
                try (rewrite <- Zle_Qle; exact Hle).
              rewrite <- Zlt_Qlt. exact Hlt.
           ++ apply (interpolate_bounds (b :: m') temp2 (snd b)
                       (snd (last (b :: m') (0, 0)%Z)) v2 Hdm E2).
      * assert (B2 : Qle_bool temp2 (inject_Z (fst b)) = false).
        { destruct (Qle_bool temp2 (inject_Z (fst b))) eqn:B2; [|reflexivity].
          apply Qle_bool_iff in B2.
          assert (Qle_bool temp1 (inject_Z (fst b)) = true)
            by (apply Qle_bool_iff; eapply Qle_trans; eassumption).
          congruence. }
        rewrite (Etail temp1 B1) in E1. rewrite (Etail temp2 B2) in E2.
        apply (IH b temp1 temp2 v1 v2); try assumption; [reflexivity|].
        apply Qlt_le_weak. apply Qnot_le_lt. intros Hc.
        apply Qle_bool_iff in Hc. congruence.
Qed.

Lemma strict_rising (s : list point) :
  StronglySorted temp_lt s ->
  (forall p q, In p s -> In q s -> (fst p < fst q)%Z -> (snd p <= snd q)%Z) ->
  StronglySorted rising s.
Proof.
  induction 1 as [|a m Hs IH Ha]; intros Hr; constructor.
  - apply IH. intros p q Hp Hq. apply Hr; right; assumption.
  - rewrite Forall_forall in *. intros q Hq.
    pose proof (Ha q Hq) as Hlt. unfold temp_lt in Hlt.
    split; [exact Hlt|].
    apply Hr; [left; reflexivity|right; exact Hq|exact Hlt].
Qed.

(** X26.  Hotter never means slower: on a curve with pairwise distinct
    temperatures whose duties do not decrease as the temperature rises,
    the interpolated duty does not decrease with the temperature, from
    the lowest point's temperature on.  (Below the lowest point the
    curve returns the last point's duty, so the restriction is needed.) *)
Theorem interpolate_rising
  (l : list point) (a : point) (temp1 temp2 v1 v2 : Q) :
  NoDup (map fst l) ->
  (forall p q, In p l -> In q l -> (fst p < fst q)%Z -> (snd p <= snd q)%Z) ->
  In a l -> inject_Z (fst a) <= temp1 -> temp1 <= temp2 ->
  interpolate l temp1 = Return v1 ->
  interpolate l temp2 = Return v2 ->
  v1 <= v2.
Proof.
  intros Hnd Hr Ha H1 H12 E1 E2.
  assert (Hs : StronglySorted rising (sorted l)).
  { apply strict_rising; [apply sorted_strict; exact Hnd|].
    intros p q Hp Hq. apply Hr; apply sorted_in; assumption. }
  assert (Es : forall temp, interpolate (sorted l) temp = interpolate l temp).
  { intros temp. unfold interpolate.
    rewrite (sorted_permutation (sorted l) l
               (Permutation_sym (sorted_perm l))). reflexivity. }
  rewrite <- Es in E1, E2.
  assert (Hin : In a (sorted l))
    by (eapply Permutation_in; [apply sorted_perm|exact Ha]).
  destruct (sorted l) as [|h m] eqn:El; [destruct Hin|].
  apply (interpolate_rising_sorted (h :: m) Hs h temp1 temp2 v1 v2);
    try assumption; [reflexivity|].
  eapply Qle_trans; [|exact H1]. rewrite <- Zle_Qle.
  destruct Hin as [->|Hin]; [lia|].
  pose proof (proj2 (StronglySorted_inv Hs)) as Hh.
  rewrite Forall_forall in Hh. destruct (Hh _ Hin) as [Hlt _]. lia.
Qed.

Lemma interpolate_rising_default :
  1915 # 40 <= 3160 # 40.
Proof.
  apply (interpolate_rising default_curve (20, 31)%Z 45 80
           (1915 # 40) (3160 # 40)).
  - simpl. repeat constructor; simpl; intuition discriminate.
  - intros p q Hp Hq Hlt. simpl in Hp, Hq.
    repeat (destruct Hp as [<-|Hp]; [|]);
      repeat (destruct Hq as [<-|Hq]; [|]);
      simpl in *; try lia; try contradiction.
  - left. reflexivity.
  - discriminate.
  - discriminate.
  - reflexivity.
  - reflexivity.
Defined.
